(** * Cognitive-Complexity-TS: the scoring engines and the name resolver

    A shallow embedding of

    - [fileCost] / [nodeCost] / [maybeAddNodeToNamedAncestors]
      (the engine wired into the output path),
    - [calcFileCost] / [calcElemCost] and the [NodeCost] class hierarchy
      (the alternate engine of cognitive-complexity.ts),
    - the name resolver ([getFunctionNodeName], [getCalledFunctionName],
      [getModuleDeclarationName], [getNewedConstructorName], ...),

    over a rose tree of typed syntax nodes.  JavaScript numbers that hold
    scores and depths are integers ([Z]); an exception is a [Throw] result. *)

From Stdlib Require Import ZArith List String Bool Lia.
Import ListNotations.

Local Open Scope Z_scope.
Local Open Scope string_scope.
Local Open Scope list_scope.

Set Implicit Arguments.

(* ================================================================== *)
(** ** Syntax trees (the parser's output, consumed read-only) *)
(* ================================================================== *)

(** The node kinds of [ts.SyntaxKind] that the engines inspect, together
    with the tokens and statements that surround them in a tree.  Every
    other kind is [OtherToken n] (a token) or [OtherKind n] (a node). *)
Inductive SyntaxKind : Set :=
  (* tokens *)
  | EndOfFileToken | OpenBraceToken | CloseBraceToken
  | OpenParenToken | CloseParenToken | DotToken | SemicolonToken
  | CommaToken | QuestionToken | ColonToken | EqualsToken
  | LessThanToken | GreaterThanToken | PlusToken | MinusToken
  | AmpersandAmpersandToken | BarBarToken
  | IfKeyword | ElseKeyword | DoKeyword | WhileKeyword
  | FunctionKeyword | ReturnKeyword | NewKeyword | VarKeyword
  | Identifier
  | OtherToken (n : nat)
  (* nodes *)
  | CatchClause | ConditionalExpression | DoStatement
  | ForInStatement | ForOfStatement | ForStatement
  | SwitchStatement | WhileStatement | IfStatement
  | BreakStatement | ContinueStatement
  | BinaryExpression | CallExpression | NewExpression
  | PropertyAccessExpression | ParenthesizedExpression
  | ArrowFunction | FunctionDeclaration | FunctionExpression
  | MethodDeclaration | GetAccessor | SetAccessor
  | ClassDeclaration | ClassExpression | ModuleDeclaration
  | VariableStatement | VariableDeclarationList | VariableDeclaration
  | ExpressionStatement | ReturnStatement
  | Block | CaseBlock | SyntaxList | SourceFile
  | OtherKind (n : nat).

Definition SyntaxKind_eq_dec (a b : SyntaxKind) : {a = b} + {a <> b}.
Proof. decide equality; apply Nat.eq_dec. Defined.

Definition kind_eqb (a b : SyntaxKind) : bool :=
  if SyntaxKind_eq_dec a b then true else false.

Local Unset Elimination Schemes.

(** A syntax node: its kind, its source text ([getText()]), the line and
    column of its start, and its ordered children ([getChildren()], which
    lists tokens too).  The parent link is not stored: the traversals pass
    the parent down (see [parentOfChildren]). *)
Inductive Node : Type :=
  mkNode {
    kind : SyntaxKind;
    getText : string;
    line : Z;
    column : Z;
    getChildren : list Node
  }.

Local Set Elimination Schemes.

(** Induction over a tree with the hypothesis for every child. *)
Section NodeInduction.
Variable P : Node -> Prop.
Hypothesis step : forall k t l c children,
    Forall P children -> P (mkNode k t l c children).

Fixpoint Node_ind (node : Node) : P node :=
  match node with
  | mkNode k t l c children =>
      step k t l c
        ((fix all (cs : list Node) : Forall P cs :=
            match cs with
            | [] => Forall_nil P
            | child :: rest => Forall_cons child (Node_ind child) (all rest)
            end) children)
  end.
End NodeInduction.

(** [node.getChildAt(i)]: [undefined] ([None]) out of range. *)
Definition getChildAt (node : Node) (i : nat) : option Node :=
  nth_error (getChildren node) i.

(** [getFullText()]; leading trivia is not represented in the tree, so the
    full text of a node is its text. *)
Definition getFullText (node : Node) : string := getText node.

(* ================================================================== *)
(** ** Exceptions *)
(* ================================================================== *)

Inductive Error : Type :=
  | UnreachableNodeState (node : Node) (message : string)
  | UnexpectedNodeError (node : Node)
  | IteratorDone
  | TypeError.

Inductive Result (A : Type) : Type :=
  | Ok (a : A)
  | Throw (e : Error).

Arguments Ok {A} a.
Arguments Throw {A} e.

Definition bind {A B : Type} (r : Result A) (k : A -> Result B) : Result B :=
  match r with
  | Ok a => k a
  | Throw e => Throw e
  end.

Notation "x <- r ;; k" := (bind r (fun x => k))
  (at level 61, r at next level, right associativity).

(** Dereferencing a possibly [undefined] node raises a [TypeError]. *)
Definition deref {A : Type} (o : option A) : Result A :=
  match o with
  | Some a => Ok a
  | None => Throw TypeError
  end.

(* ================================================================== *)
(** ** The type guards of the TypeScript API *)
(* ================================================================== *)

Module ts.

Definition isKind (k : SyntaxKind) (node : Node) : bool :=
  kind_eqb (kind node) k.

Definition isCatchClause := isKind CatchClause.
Definition isConditionalExpression := isKind ConditionalExpression.
Definition isDoStatement := isKind DoStatement.
Definition isForInStatement := isKind ForInStatement.
Definition isForOfStatement := isKind ForOfStatement.
Definition isForStatement := isKind ForStatement.
Definition isSwitchStatement := isKind SwitchStatement.
Definition isWhileStatement := isKind WhileStatement.
Definition isIfStatement := isKind IfStatement.
Definition isBinaryExpression := isKind BinaryExpression.
Definition isCallExpression := isKind CallExpression.
Definition isNewExpression := isKind NewExpression.
Definition isParenthesizedExpression := isKind ParenthesizedExpression.
Definition isIdentifier := isKind Identifier.
Definition isArrowFunction := isKind ArrowFunction.
Definition isFunctionDeclaration := isKind FunctionDeclaration.
Definition isFunctionExpression := isKind FunctionExpression.
Definition isMethodDeclaration := isKind MethodDeclaration.
Definition isClassDeclaration := isKind ClassDeclaration.
Definition isClassExpression := isKind ClassExpression.
Definition isModuleDeclaration := isKind ModuleDeclaration.

Definition isAccessor (node : Node) : bool :=
  isKind GetAccessor node || isKind SetAccessor node.

Definition isBreakOrContinueStatement (node : Node) : bool :=
  isKind BreakStatement node || isKind ContinueStatement node.

(** [ts.isToken]: the kind lies in the token range, which holds the
    punctuation, the keywords and the identifiers. *)
Definition isToken (node : Node) : bool :=
  match kind node with
  | EndOfFileToken | OpenBraceToken | CloseBraceToken
  | OpenParenToken | CloseParenToken | DotToken | SemicolonToken
  | CommaToken | QuestionToken | ColonToken | EqualsToken
  | LessThanToken | GreaterThanToken | PlusToken | MinusToken
  | AmpersandAmpersandToken | BarBarToken
  | IfKeyword | ElseKeyword | DoKeyword | WhileKeyword
  | FunctionKeyword | ReturnKeyword | NewKeyword | VarKeyword
  | Identifier | OtherToken _ => true
  | _ => false
  end.

End ts.

(** [Array.prototype.findIndex]: [None] stands for -1. *)
Fixpoint findIndex {A : Type} (p : A -> bool) (l : list A) : option nat :=
  match l with
  | [] => None
  | x :: rest =>
      if p x then Some 0%nat
      else match findIndex p rest with
           | Some i => Some (S i)
           | None => None
           end
  end.

(* ================================================================== *)
(** ** Node inspection *)
(* ================================================================== *)

(** Modelled from the spec: [isFunctionNode] of the module node-inspection,
    which is not among the sources.  "function declarations, function
    expressions, arrow functions, methods, and accessors (getter/setter)";
    these are also the five cases [getFunctionNodeName] recognises. *)
Definition isFunctionNode (node : Node) : bool :=
  ts.isAccessor node
  || ts.isArrowFunction node
  || ts.isFunctionDeclaration node
  || ts.isFunctionExpression node
  || ts.isMethodDeclaration node.

(** Modelled from the spec: [getIdentifier] of the module node-inspection,
    which is not among the sources.  "its identifier": the text of the
    first child that is an identifier, [undefined] when there is none. *)
Definition getIdentifier (node : Node) : option string :=
  match List.find ts.isIdentifier (getChildren node) with
  | Some child => Some (getText child)
  | None => None
  end.

(** Modelled from the spec: [getColumnAndLine] of the module
    node-inspection, which is not among the sources.  The position of the
    node's start. *)
Definition getColumnAndLine (node : Node) : Z * Z :=
  (column node, line node).

(** A break or continue that names a target label. *)
Definition isBreakOrContinueToLabel (node : Node) : bool :=
  ts.isBreakOrContinueStatement node
  && existsb ts.isIdentifier (getChildren node).

(* ================================================================== *)
(** ** Name resolution *)
(* ================================================================== *)

Fixpoint getIdentifierDespiteBrackets (node : Node) : Result (option string) :=
  if ts.isIdentifier node then Ok (Some (getText node))
  else if ts.isParenthesizedExpression node then
    match getChildren node with
    | _ :: inner :: _ => getIdentifierDespiteBrackets inner
    | _ => Throw TypeError   (* [ts.isIdentifier(undefined)] *)
    end
  else Ok None.

Definition getCalledFunctionName (node : Node) : Result string :=
  expressionToCall <- deref (nth_error (getChildren node) 0) ;;
  name <- getIdentifierDespiteBrackets expressionToCall ;;
  Ok (match name with Some s => s | None => "" end).

Definition getClassDeclarationName (node : Node) : string :=
  match getIdentifier node with
  | Some name => name
  | None => ""   (* anonymous class *)
  end.

Definition getFunctionNodeName (func : Node) (variableBeingDefined : option string)
  : Result string :=
  if ts.isAccessor func then
    child <- deref (getChildAt func 1) ;;
    Ok (getText child)
  else if ts.isArrowFunction func then
    Ok (match variableBeingDefined with Some v => v | None => "" end)
  else if ts.isFunctionDeclaration func then
    let functionKeywordIndex :=
      findIndex (ts.isKind FunctionKeyword) (getChildren func) in
    identifier <- deref (getChildAt func
                           match functionKeywordIndex with
                           | Some i => S i
                           | None => 0%nat   (* -1 + 1 *)
                           end) ;;
    Ok (getText identifier)
  else if ts.isFunctionExpression func then
    maybeIdentifier <- deref (nth_error (getChildren func) 1) ;;
    if ts.isIdentifier maybeIdentifier then Ok (getText maybeIdentifier)
    else Ok (match variableBeingDefined with Some v => v | None => "" end)
  else if ts.isMethodDeclaration func then
    match getIdentifier func with
    | Some name => Ok name
    | None => Throw (UnreachableNodeState func "Method has no identifier.")
    end
  else
    Throw (UnreachableNodeState func "FunctionNode is not of a recognised type.").

Definition getModuleDeclarationName (node : Node) : Result string :=
  match List.find ts.isIdentifier (getChildren node) with
  | None => Throw (UnreachableNodeState node "Module declaration has no identifier.")
  | Some moduleIdentifier => Ok (getText moduleIdentifier)
  end.

Definition getNewedConstructorName (node : Node) : Result string :=
  child <- deref (getChildAt node 1) ;;
  name <- getIdentifierDespiteBrackets child ;;
  match name with
  | Some name => Ok name
  | None => Throw (UnreachableNodeState node "Newed constructor does not have a name.")
  end.

(* ================================================================== *)
(** ** Output types *)
(* ================================================================== *)

Local Unset Elimination Schemes.

(** [FunctionOutput] (and [OutputElem], which has the same shape): a
    reported container. *)
Inductive FunctionOutput : Type :=
  mkFunctionOutput {
    fo_name : string;
    fo_score : Z;
    fo_line : Z;
    fo_column : Z;
    fo_inner : list FunctionOutput
  }.

Local Set Elimination Schemes.

Definition OutputElem := FunctionOutput.

Record ScoreAndInner : Type := mkScoreAndInner {
  inner : list FunctionOutput;
  score : Z
}.

Definition FileOutput := ScoreAndInner.
Definition OutputFileElem := ScoreAndInner.

(** Modelled from the spec: [sum] of the module util, which is not among
    the sources.  The reducer with which [fileCost] "sums their scores". *)
Definition sum (a b : Z) : Z := a + b.

(* ================================================================== *)
(** ** The collaborators of [nodeCost] that are not among the sources *)
(* ================================================================== *)

(** [whereAreChildren] of the module depth is not among the sources.  The
    engine is stated over any partitioner: [isBelow node i] tells whether
    the child at position [i] of [node] lands in the bucket [below];
    every other child lands in [same].  Both buckets keep source order.
    A partitioner that leaves the keyword and punctuation tokens out of
    both buckets scores like the one that keeps them in [same]: a token
    costs nothing and reports no container ([nodeCost_token]). *)
Class Depth : Type := {
  isBelow : Node -> nat -> bool
}.

(** [isNamedDeclarationOfContainer] and [getDeclarationName] of the module
    node-inspection are not among the sources either; the engine is stated
    over any pair of them. *)
Class NodeInspection : Type := {
  isNamedDeclarationOfContainer : Node -> bool;
  getDeclarationName : Node -> Result string
}.

Record DepthOfChildren : Type := mkDepthOfChildren {
  same : list Node;
  below : list Node
}.

(** The elements of [children] whose position satisfies [p], in order,
    positions counted from [i]. *)
Fixpoint pick {A : Type} (p : nat -> bool) (i : nat) (children : list A) : list A :=
  match children with
  | [] => []
  | child :: rest =>
      if p i then child :: pick p (S i) rest else pick p (S i) rest
  end.

Definition whereAreChildren `{Depth} (node : Node) : DepthOfChildren :=
  {| same := pick (fun i => negb (isBelow node i)) 0 (getChildren node);
     below := pick (isBelow node) 0 (getChildren node) |}.

(* ================================================================== *)
(** ** The scoring engine: [nodeCost] *)
(* ================================================================== *)

(** What [node.parent] evaluates to for the children of [node]: the
    parser makes the members of a syntax list children of the node that
    owns the list, not of the list. *)
Definition parentOfChildren (node : Node) (parent : option Node) : option Node :=
  if ts.isKind SyntaxList node then parent else Some node.

(** The nine kinds that head the inherent-cost test of [nodeCost]. *)
Definition hasInherentCost (node : Node) : bool :=
  ts.isCatchClause node
  || ts.isConditionalExpression node
  || ts.isDoStatement node
  || ts.isForInStatement node
  || ts.isForOfStatement node
  || ts.isForStatement node
  || ts.isSwitchStatement node
  || ts.isWhileStatement node
  || isBreakOrContinueToLabel node.

(** [node.parent.getChildAt(1)?.kind != node.getChildAt(1).kind]. *)
Definition parentOperatorDiffers (node : Node) (parent : option Node) : Result bool :=
  p <- deref parent ;;
  operator <- deref (getChildAt node 1) ;;
  Ok (match getChildAt p 1 with
      | Some parentOperator => negb (kind_eqb (kind parentOperator) (kind operator))
      | None => true   (* [undefined != kind] *)
      end).

(** The loop over [namedAncestors] that stops at the first match. *)
Fixpoint recursionIncrement (calledFunctionName : string) (namedAncestors : list string) : Z :=
  match namedAncestors with
  | [] => 0
  | name :: rest =>
      if String.eqb name calledFunctionName then 1
      else recursionIncrement calledFunctionName rest
  end.

(** The increment for a solo else of an if statement. *)
Definition soloElseIncrement (node : Node) : Result Z :=
  let children := getChildren node in
  match findIndex (ts.isKind ElseKeyword) children with
  | Some elseIndex =>
      next <- deref (nth_error children (S elseIndex)) ;;
      let elseIf := ts.isIfStatement next in
      if negb elseIf then Ok 1 else Ok 0
  | None => Ok 0
  end.

(** The first part of [nodeCost]: the chain of tests on the node's own
    kind (certain language features carry an inherent cost). *)
Definition inherentIncrement (node : Node) (parent : option Node)
           (namedAncestors : list string) : Result Z :=
  if hasInherentCost node then Ok 1
  else
    startsSequence <- (if ts.isBinaryExpression node
                       then parentOperatorDiffers node parent
                       else Ok false) ;;
    if startsSequence then Ok 1
    else if ts.isCallExpression node then
      calledFunctionName <- getCalledFunctionName node ;;
      Ok (recursionIncrement calledFunctionName namedAncestors)
    else if ts.isIfStatement node then
      solo <- soloElseIncrement node ;;
      Ok (1 + solo)
    else Ok 0.

(** The kinds that head the nesting test of [nodeCost]. *)
Definition hasNestingCost (node : Node) : bool :=
  ts.isCatchClause node
  || ts.isConditionalExpression node
  || ts.isDoStatement node
  || ts.isForInStatement node
  || ts.isForOfStatement node
  || ts.isForStatement node
  || ts.isSwitchStatement node
  || ts.isWhileStatement node.

(** The second part of [nodeCost]: the increment for the nesting level. *)
Definition nestingIncrement (node : Node) (parent : option Node) (depth : Z)
  : Result Z :=
  if depth >? 0 then
    if hasNestingCost node then Ok depth
    else if ts.isIfStatement node then
      p <- deref parent ;;
      if negb (ts.isIfStatement p) then Ok depth else Ok 0
    else Ok 0
  else Ok 0.

Definition maybeAddNodeToNamedAncestors `{NodeInspection}
           (node : Node) (ancestorsOfNode : list string) : Result (list string) :=
  if isNamedDeclarationOfContainer node then
    name <- getDeclarationName node ;;
    Ok (ancestorsOfNode ++ [name])
  else if isFunctionNode node then
    nodeNameIfCallable <- getFunctionNodeName node None ;;
    if negb (Nat.eqb (String.length nodeNameIfCallable) 0)
    then Ok (ancestorsOfNode ++ [nodeNameIfCallable])
    else Ok ancestorsOfNode
  else Ok ancestorsOfNode.

Section Aggregate.

(** [child => nodeCost(child, topLevel, localDepth, namedAncestorsOfChildren)] *)
Variable costOfChild : Node -> bool -> Z -> Result ScoreAndInner.
Variable namedAncestorsOfChildren : list string.

(** The body of the loop of [aggregateScoreAndInnerForChildren] after the
    child has been scored; [acc] holds the [score] and [inner] that the
    loop updates. *)
Definition addChildCost (acc : ScoreAndInner) (child : Node)
           (childCost : ScoreAndInner) : Result ScoreAndInner :=
  let score' := score acc + score childCost in
  let entry name :=
    {| fo_name := name;
       fo_score := score childCost;
       fo_line := snd (getColumnAndLine child);
       fo_column := fst (getColumnAndLine child);
       fo_inner := inner childCost |} in
  if isFunctionNode child then
    let variableBeingDefined :=
      nth_error namedAncestorsOfChildren
                (Nat.pred (List.length namedAncestorsOfChildren)) in
    name <- getFunctionNodeName child variableBeingDefined ;;
    Ok {| inner := inner acc ++ [entry name]; score := score' |}
  else if ts.isClassDeclaration child then
    Ok {| inner := inner acc ++ [entry (getClassDeclarationName child)];
          score := score' |}
  else if ts.isModuleDeclaration child then
    name <- getModuleDeclarationName child ;;
    Ok {| inner := inner acc ++ [entry name]; score := score' |}
  else
    Ok {| inner := inner acc ++ inner childCost; score := score' |}.

Fixpoint aggregateScoreAndInnerForChildren (nodesInsideNode : list Node)
         (localDepth : Z) (topLevel : bool) (acc : ScoreAndInner)
  : Result ScoreAndInner :=
  match nodesInsideNode with
  | [] => Ok acc
  | child :: rest =>
      childCost <- costOfChild child topLevel localDepth ;;
      acc' <- addChildCost acc child childCost ;;
      aggregateScoreAndInnerForChildren rest localDepth topLevel acc'
  end.

(** The same loop run directly over the children whose position
    satisfies [p]; [aggregateBucket_pick] below shows that it is the loop
    above run over [pick p i children]. *)
Fixpoint aggregateBucket (p : nat -> bool) (i : nat) (children : list Node)
         (localDepth : Z) (topLevel : bool) (acc : ScoreAndInner)
  : Result ScoreAndInner :=
  match children with
  | [] => Ok acc
  | child :: rest =>
      if p i then
        childCost <- costOfChild child topLevel localDepth ;;
        acc' <- addChildCost acc child childCost ;;
        aggregateBucket p (S i) rest localDepth topLevel acc'
      else aggregateBucket p (S i) rest localDepth topLevel acc
  end.

End Aggregate.

Fixpoint nodeCost `{Depth} `{NodeInspection}
         (node : Node) (parent : option Node) (topLevel : bool)
         (depth : Z) (namedAncestors : list string) {struct node}
  : Result ScoreAndInner :=
  inherent <- inherentIncrement node parent namedAncestors ;;
  nesting <- nestingIncrement node parent depth ;;
  let score := inherent + nesting in
  namedAncestorsOfChildren <- maybeAddNodeToNamedAncestors node namedAncestors ;;
  let costOfChild child topLevel localDepth :=
    nodeCost child (parentOfChildren node parent) topLevel localDepth
             namedAncestorsOfChildren in
  let aggregate := aggregateBucket costOfChild namedAncestorsOfChildren in
  let inSame i := negb (isBelow node i) in
  let inBelow i := isBelow node i in
  let acc := {| inner := []; score := score |} in
  if topLevel then
    acc <- aggregate inSame 0%nat (getChildren node) depth topLevel acc ;;
    aggregate inBelow 0%nat (getChildren node) depth false acc
  else
    acc <- aggregate inSame 0%nat (getChildren node) depth false acc ;;
    aggregate inBelow 0%nat (getChildren node) (depth + 1) false acc.

(** [Array.prototype.map] with a callback that may throw. *)
Fixpoint mapM {A B : Type} (f : A -> Result B) (l : list A) : Result (list B) :=
  match l with
  | [] => Ok []
  | x :: rest =>
      y <- f x ;;
      ys <- mapM f rest ;;
      Ok (y :: ys)
  end.

Definition fileCost `{Depth} `{NodeInspection} (file : Node) : Result FileOutput :=
  childCosts <- mapM (fun elem => nodeCost elem (Some file) true 0 [])
                     (getChildren file) ;;
  let score := fold_left sum (map score childCosts) 0 in
  let inner := List.concat (map inner childCosts) in
  Ok {| inner := inner; score := score |}.

(* ================================================================== *)
(** ** The collaborators, as the specification describes them *)
(* ================================================================== *)

(** Modelled from the spec: [whereAreChildren] of the module depth, which
    is not among the sources.  "For loop constructs (for/for-in/for-of)
    every child is scored at the loop's own depth.  For branching
    constructs (if/else, conditional expression, do/while, switch) [...]
    the controlling condition or switch discriminant stays at same depth;
    the executed body/branch/case-list moves to below.  For plain nodes
    all children are same."  The branches are found by position among the
    children that [getChildren()] lists:
    if ( cond ) then else else-branch,  cond ? then : else,
    do body while ( cond ),  while ( cond ) body,  switch ( expr ) cases. *)
Definition specIsBelow (node : Node) (i : nat) : bool :=
  if ts.isIfStatement node then Nat.eqb i 4 || Nat.eqb i 6
  else if ts.isConditionalExpression node then Nat.eqb i 2 || Nat.eqb i 4
  else if ts.isDoStatement node then Nat.eqb i 1
  else if ts.isWhileStatement node then Nat.eqb i 4
  else if ts.isSwitchStatement node then Nat.eqb i 4
  else false.

#[export] Instance specDepth : Depth := {| isBelow := specIsBelow |}.

(** Modelled from the spec: [isNamedDeclarationOfContainer] of the module
    node-inspection, which is not among the sources.  The nodes whose own
    name extends the named-ancestor context besides the function-like
    ones: the container-introducing nodes ("classes, modules/namespaces")
    and the declaration of a variable, whose name is the hint for an
    anonymous function assigned to it. *)
Definition specIsNamedDeclarationOfContainer (node : Node) : bool :=
  ts.isClassDeclaration node
  || ts.isModuleDeclaration node
  || ts.isKind VariableDeclaration node.

(** Modelled from the spec: [getDeclarationName] of the module
    node-inspection, which is not among the sources.  "Class declaration:
    its identifier or empty.  Module/namespace declaration: its
    identifier; absence signals an unrecoverable-state error."  A variable
    declaration starts with the name it declares. *)
Definition specGetDeclarationName (node : Node) : Result string :=
  if ts.isClassDeclaration node then Ok (getClassDeclarationName node)
  else if ts.isModuleDeclaration node then getModuleDeclarationName node
  else
    name <- deref (getChildAt node 0) ;;
    Ok (getText name).

#[export] Instance specNodeInspection : NodeInspection :=
  {| isNamedDeclarationOfContainer := specIsNamedDeclarationOfContainer;
     getDeclarationName := specGetDeclarationName |}.

(* ================================================================== *)
(** ** Concrete trees, as the parser lays them out *)
(* ================================================================== *)

Module Tree.

Definition tok (k : SyntaxKind) (text : string) : Node := mkNode k text 0 0 [].
Definition ident (name : string) : Node := tok Identifier name.
Definition node (k : SyntaxKind) (children : list Node) : Node :=
  mkNode k "" 0 0 children.

(** [{ stmts }] *)
Definition block (stmts : list Node) : Node :=
  node Block [tok OpenBraceToken "{"; node SyntaxList stmts; tok CloseBraceToken "}"].

(** [if (cond) thenBranch] *)
Definition ifThen (cond thenBranch : Node) : Node :=
  node IfStatement
       [tok IfKeyword "if"; tok OpenParenToken "("; cond; tok CloseParenToken ")";
        thenBranch].

(** [if (cond) thenBranch else elseBranch] *)
Definition ifThenElse (cond thenBranch elseBranch : Node) : Node :=
  node IfStatement
       [tok IfKeyword "if"; tok OpenParenToken "("; cond; tok CloseParenToken ")";
        thenBranch; tok ElseKeyword "else"; elseBranch].

(** [while (cond) body] *)
Definition while (cond body : Node) : Node :=
  node WhileStatement
       [tok WhileKeyword "while"; tok OpenParenToken "("; cond;
        tok CloseParenToken ")"; body].

(** [left op right] *)
Definition binary (left : Node) (op : SyntaxKind) (right : Node) : Node :=
  node BinaryExpression [left; tok op ""; right].

(** [expr;] *)
Definition exprStatement (expr : Node) : Node :=
  node ExpressionStatement [expr; tok SemicolonToken ";"].

(** [( expr )] *)
Definition paren (expr : Node) : Node :=
  node ParenthesizedExpression
       [tok OpenParenToken "("; expr; tok CloseParenToken ")"].

(** [callee(args)] *)
Definition call (callee : Node) (args : list Node) : Node :=
  node CallExpression
       [callee; tok OpenParenToken "("; node SyntaxList args; tok CloseParenToken ")"].

(** [object.name] *)
Definition propertyAccess (object : Node) (name : string) : Node :=
  node PropertyAccessExpression [object; tok DotToken "."; ident name].

(** [return expr;] *)
Definition returnStatement (expr : Node) : Node :=
  node ReturnStatement [tok ReturnKeyword "return"; expr; tok SemicolonToken ";"].

(** [function name(params) { body }] *)
Definition functionDeclaration (name : string) (params body : list Node) : Node :=
  node FunctionDeclaration
       [tok FunctionKeyword "function"; ident name; tok OpenParenToken "(";
        node SyntaxList params; tok CloseParenToken ")"; block body].

(** A source file holding the statements [stmts]. *)
Definition sourceFile (stmts : list Node) : Node :=
  node SourceFile [node SyntaxList stmts; tok EndOfFileToken ""].

End Tree.

(* ================================================================== *)
(** ** The alternate engine: [calcFileCost] and the [NodeCost] classes *)
(* ================================================================== *)

(** Modelled from the spec: [throwingIterator] of the module util, which
    is not among the sources ("manual iterator advancement [...] an
    imperative walk that can throw on an unexpected shape").  [nextChild()]
    hands out the next child and throws once the children are used up; the
    walks below match on the remaining children, and
    [Throw IteratorDone] stands where [nextChild()] finds none. *)
Definition iteratorDone {A : Type} : Result A := Throw IteratorDone.

Definition isTokenOfKind (k : SyntaxKind) (child : Node) : bool :=
  ts.isToken child && kind_eqb (kind child) k.

Section AbstractNodeCost.

(** [new NodeCost(node, depth)]: the constructor runs [calculate] and
    leaves the object's [inner] and [_score]. *)
Variable newNodeCost : Node -> Z -> Result ScoreAndInner.

(** [this] is the pair of the object's [inner] and [_score]. *)
Definition include (this : ScoreAndInner) (node : Node) (depth : Z)
  : Result ScoreAndInner :=
  cost <- newNodeCost node depth ;;
  Ok {| inner := inner this ++ inner cost; score := score this + score cost |}.

Fixpoint includeAll (this : ScoreAndInner) (nodes : list Node) (depth : Z)
  : Result ScoreAndInner :=
  match nodes with
  | [] => Ok this
  | child :: rest =>
      this' <- include this child depth ;;
      includeAll this' rest depth
  end.

(** [ConditionalExpressionCost.calculate].  [childNodesToAggregate.push()]
    is called without an argument, so the array is empty whenever it is
    aggregated: it is written [[]] here. *)
Fixpoint ConditionalExpressionCost_calculate (children : list Node)
         (this : ScoreAndInner) (depth : Z) : Result ScoreAndInner :=
  match children with
  | [] => includeAll this [] depth   (* aggregate else *)
  | child :: rest =>
      if isTokenOfKind QuestionToken child then
        this' <- includeAll this [] depth ;;   (* aggregate condition *)
        ConditionalExpressionCost_calculate rest this' depth
      else if isTokenOfKind ColonToken child then
        this' <- includeAll this [] (depth + 1) ;;   (* aggregate then *)
        ConditionalExpressionCost_calculate rest this' depth
      else
        ConditionalExpressionCost_calculate rest this depth
  end.

Definition DoStatementCost_calculate (children : list Node)
           (this : ScoreAndInner) (depth : Z) : Result ScoreAndInner :=
  match children with
  | [] => iteratorDone
  | child :: rest =>
      if isTokenOfKind DoKeyword child then
        match rest with
        | [] => iteratorDone
        | blockNode :: rest =>
            this' <- include this blockNode (depth + 1) ;;   (* aggregate block *)
            match rest with
            | [] => iteratorDone
            | _ :: rest =>     (* consume while keyword *)
                match rest with
                | [] => iteratorDone
                | _ :: rest =>     (* consume open paren *)
                    match rest with
                    | [] => iteratorDone
                    | condition :: _ => include this' condition depth
                    end
                end
            end
        end
      else Throw (UnexpectedNodeError child)
  end.

Fixpoint IfStatementCost_calculate (children : list Node)
         (this : ScoreAndInner) (depth : Z) : Result ScoreAndInner :=
  match children with
  | [] => iteratorDone
  | child :: rest =>
      if isTokenOfKind IfKeyword child then
        match rest with
        | [] => iteratorDone
        | _ :: rest =>     (* consume open parenthesis *)
            match rest with
            | [] => iteratorDone
            | condition :: rest =>
                this' <- include this condition depth ;;
                IfStatementCost_calculate rest this' depth
            end
        end
      else if isTokenOfKind CloseParenToken child then
        match rest with
        | [] => iteratorDone
        | thenNode :: rest =>
            this' <- include this thenNode (depth + 1) ;;
            IfStatementCost_calculate rest this' depth
        end
      else if isTokenOfKind ElseKeyword child then
        match rest with
        | [] => iteratorDone
        | elseNode :: _ => include this elseNode (depth + 1)   (* break *)
        end
      else Throw (UnexpectedNodeError child)
  end.

Definition SwitchStatementCost_calculate (children : list Node)
           (this : ScoreAndInner) (depth : Z) : Result ScoreAndInner :=
  match children with
  | _ :: _ :: condition :: rest =>
      this' <- include this condition depth ;;
      match rest with
      | _ :: cases :: _ => include this' cases (depth + 1)
      | _ => iteratorDone
      end
  | _ => iteratorDone
  end.

(** [WhileStatementCost.calculate]: the test for the closing parenthesis
    is a second [if], not an [else if], so it is also run on the while
    keyword after the condition has been aggregated. *)
Definition WhileStatementCost_calculate (children : list Node)
           (this : ScoreAndInner) (depth : Z) : Result ScoreAndInner :=
  match children with
  | [] => iteratorDone
  | child :: rest =>
      this' <- (if isTokenOfKind WhileKeyword child then
                  match rest with
                  | _ :: condition :: _ => include this condition depth
                  | _ => iteratorDone
                  end
                else Ok this) ;;
      if isTokenOfKind CloseParenToken child then
        match rest with
        | [] => iteratorDone
        | body :: _ => include this' body (depth + 1)   (* break *)
        end
      else Throw (UnexpectedNodeError child)
  end.

End AbstractNodeCost.

(** The kinds that [NodeCost.calculate] charges an inherent cost. *)
Definition NodeCost_hasInherentCost (node : Node) : bool :=
  ts.isCatchClause node
  || ts.isConditionalExpression node
  || ts.isForInStatement node
  || ts.isForOfStatement node
  || ts.isForStatement node
  || ts.isIfStatement node
  || ts.isSwitchStatement node
  || ts.isWhileStatement node
  || isBreakOrContinueToLabel node.

(** The kinds that [NodeCost.calculate] charges the nesting level. *)
Definition NodeCost_hasNestingCost (node : Node) : bool :=
  ts.isConditionalExpression node
  || ts.isForInStatement node
  || ts.isForOfStatement node
  || ts.isForStatement node
  || ts.isIfStatement node
  || ts.isSwitchStatement node
  || ts.isWhileStatement node.

Definition NodeCost_inherentIncrement (node : Node) : Z :=
  if NodeCost_hasInherentCost node then 1 else 0.

Definition NodeCost_nestingIncrement (node : Node) (depth : Z) : Z :=
  if (depth >? 0) && NodeCost_hasNestingCost node then depth else 0.

(** [new NodeCost(node, depth)], that is [NodeCost.calculate]. *)
Fixpoint NodeCost (node : Node) (depth : Z) {struct node} : Result ScoreAndInner :=
  let this :=
    {| inner := [];
       score := 0 + NodeCost_inherentIncrement node
                + NodeCost_nestingIncrement node depth |} in
  let sub (calculate : list Node -> ScoreAndInner -> Z -> Result ScoreAndInner) :=
    (* [const { inner, score } = new XCost(node, depth)], then merged *)
    cost <- calculate (getChildren node) {| inner := []; score := 0 |} depth ;;
    Ok {| inner := inner this ++ inner cost; score := score this + score cost |} in
  (* certain structures increment depth for their child nodes *)
  if ts.isForInStatement node
     || ts.isForOfStatement node
     || ts.isForStatement node
     || (negb (depth =? 0)%Z
         && (ts.isArrowFunction node
             || ts.isFunctionDeclaration node
             || ts.isFunctionExpression node
             || ts.isMethodDeclaration node))
  then Ok this
  else if ts.isCatchClause node then
    includeAll NodeCost this (getChildren node) (depth + 1)
  else if ts.isConditionalExpression node then
    sub (ConditionalExpressionCost_calculate NodeCost)
  else if ts.isDoStatement node then
    sub (DoStatementCost_calculate NodeCost)
  else if ts.isIfStatement node then
    sub (IfStatementCost_calculate NodeCost)
  else if ts.isSwitchStatement node then
    sub (SwitchStatementCost_calculate NodeCost)
  else if ts.isWhileStatement node then
    sub (WhileStatementCost_calculate NodeCost)
  else
    includeAll NodeCost this (getChildren node) depth.

Fixpoint calcElemCost (node : Node) (depth : Z) {struct node} : Result OutputElem :=
  let fix children (cs : list Node) (acc : ScoreAndInner) : Result ScoreAndInner :=
    match cs with
    | [] => Ok acc
    | child :: rest =>
        elem <- calcElemCost child 0 ;;
        children rest {| inner := inner acc ++ [elem];
                         score := score acc + fo_score elem |}
    end in
  acc <- children (getChildren node) {| inner := []; score := 0 |} ;;
  nodeCost <- NodeCost node depth ;;
  Ok {| fo_name := getFullText node;
        fo_score := score acc + score nodeCost;
        fo_line := line node;
        fo_column := column node;
        fo_inner := inner acc ++ inner nodeCost |}.

Definition calcFileCost (file : Node) : Result OutputFileElem :=
  (fix children (cs : list Node) (acc : ScoreAndInner) : Result ScoreAndInner :=
     match cs with
     | [] => Ok acc
     | child :: rest =>
         elem <- calcElemCost child 0 ;;
         children rest {| inner := inner acc ++ [elem];
                          score := score acc + fo_score elem |}
     end) (getChildren file) {| inner := []; score := 0 |}.

(* ================================================================== *)
(** ** Vocabulary of the statements *)
(* ================================================================== *)

(** The score of a run, when the run returns. *)
Definition scoreOf (r : Result ScoreAndInner) : option Z :=
  match r with
  | Ok cost => Some (score cost)
  | Throw _ => None
  end.

(** One level of [nodeCost], written over the two buckets of
    [whereAreChildren] as the source has it, with the depth at which the
    bucket [below] is scored left open. *)
Definition scoreChildrenAt `{Depth} `{NodeInspection} (depthBelow : Z)
           (node : Node) (parent : option Node) (topLevel : bool)
           (depth : Z) (namedAncestors : list string) : Result ScoreAndInner :=
  inherent <- inherentIncrement node parent namedAncestors ;;
  nesting <- nestingIncrement node parent depth ;;
  namedAncestorsOfChildren <- maybeAddNodeToNamedAncestors node namedAncestors ;;
  let costOfChild child topLevel localDepth :=
    nodeCost child (parentOfChildren node parent) topLevel localDepth
             namedAncestorsOfChildren in
  let aggregate :=
    aggregateScoreAndInnerForChildren costOfChild namedAncestorsOfChildren in
  acc <- aggregate (same (whereAreChildren node)) depth topLevel
                   {| inner := []; score := inherent + nesting |} ;;
  aggregate (below (whereAreChildren node)) depthBelow false acc.

(** [expr] wrapped in [n] pairs of redundant parentheses. *)
Fixpoint parens (n : nat) (expr : Node) : Node :=
  match n with
  | O => expr
  | S n' => Tree.paren (parens n' expr)
  end.

(** [Unwraps expr core]: removing the parentheses around [expr] leaves
    [core], which is not a parenthesized expression. *)
Inductive Unwraps : Node -> Node -> Prop :=
  | Unwraps_core (expr : Node) :
      ts.isParenthesizedExpression expr = false ->
      Unwraps expr expr
  | Unwraps_paren (expr wrapped core : Node) :
      ts.isParenthesizedExpression expr = true ->
      getChildAt expr 1 = Some wrapped ->
      Unwraps wrapped core ->
      Unwraps expr core.

(** The kinds of the tokens. *)
Definition isTokenKind (k : SyntaxKind) : bool := ts.isToken (Tree.tok k "").

(** Whether the child at position 1 of the parent has the kind [op]. *)
Definition parentUses (op : SyntaxKind) (p : Node) : bool :=
  match getChildAt p 1 with
  | Some parentOperator => kind_eqb (kind parentOperator) op
  | None => false
  end.

(** Every run of [costOfChild] on [child] that returns has a score of
    at least zero. *)
Definition nonNegativeOn (costOfChild : Node -> bool -> Z -> Result ScoreAndInner)
           (child : Node) : Prop :=
  forall topLevel localDepth cost,
    costOfChild child topLevel localDepth = Ok cost -> 0 <= score cost.

(** A child that [aggregateScoreAndInnerForChildren] reports as a
    container: a function, a class or a module. *)
Definition isReportedContainer (child : Node) : bool :=
  isFunctionNode child || ts.isClassDeclaration child || ts.isModuleDeclaration child.

(** [hasConstantCost costOfChild child c]: [child] is not reported as a
    container and every run of [costOfChild] on it returns the score [c]
    and no container, whatever the depth and the top-level flag. *)
Definition hasConstantCost (costOfChild : Node -> bool -> Z -> Result ScoreAndInner)
           (child : Node) (c : Z) : Prop :=
  isReportedContainer child = false
  /\ forall topLevel localDepth,
      costOfChild child topLevel localDepth = Ok {| inner := []; score := c |}.

(** A run of [n + 1] operands joined by the one operator [op]:
    [x0 op x1 op ... op xn], which the parser nests to the left. *)
Fixpoint operatorRun (op : SyntaxKind) (first : Node) (operands : list Node) : Node :=
  match operands with
  | [] => first
  | x :: rest => operatorRun op (Tree.binary first op x) rest
  end.

Module Examples.
Import Tree.

(** [if (a) {} else if (b) {} else {}] *)
Definition ifElseIfElse : Node :=
  ifThenElse (ident "a") (block [])
             (ifThenElse (ident "b") (block []) (block [])).

(** [if (b) {}] *)
Definition ifNoElse : Node := ifThen (ident "b") (block []).

(** [if (a) { if (b) {} }] *)
Definition ifInIf : Node := ifThen (ident "a") (block [ifNoElse]).

(** [if (a) while (b) {}] *)
Definition ifWhile : Node := ifThen (ident "a") (while (ident "b") (block [])).

(** [a && b && c;] and [a && b || c;] *)
Definition andAnd : Node :=
  exprStatement (binary (binary (ident "a") AmpersandAmpersandToken (ident "b"))
                        AmpersandAmpersandToken (ident "c")).
Definition andOr : Node :=
  exprStatement (binary (binary (ident "a") AmpersandAmpersandToken (ident "b"))
                        BarBarToken (ident "c")).

(** [a = b], the declaration [x = a = b], and the statement
    [var x = a = b;] that holds it *)
Definition assignment : Node := binary (ident "a") EqualsToken (ident "b").
Definition declaration : Node :=
  node VariableDeclaration [ident "x"; tok EqualsToken "="; assignment].
Definition varStatement : Node :=
  node VariableStatement
       [node VariableDeclarationList
             [tok VarKeyword "var"; node SyntaxList [declaration]];
        tok SemicolonToken ";"].

(** [function f() { return g(); }] *)
Definition functionCalling (f g : string) : Node :=
  functionDeclaration f [] [returnStatement (call (ident g) [])].

(** [obj.m()] *)
Definition methodCall : Node := call (propertyAccess (ident "obj") "m") [].

(** [new (obj.m)] seen as the children [new], [obj.m] *)
Definition newOfProperty : Node :=
  node NewExpression [tok NewKeyword "new"; propertyAccess (ident "obj") "m"].

(** [catch {}] *)
Definition catchClause : Node :=
  node CatchClause [tok (OtherToken 0) "catch"; block []].

(** [else if (b) {}] seen from its parent [if (a) {} else if (b) {}] *)
Definition elseIfParent : Node := ifThenElse (ident "a") (block []) ifNoElse.

(** A method and a module declaration without an identifier, and with one. *)
Definition namelessMethod : Node :=
  node MethodDeclaration [tok OpenParenToken "("; node SyntaxList [];
                          tok CloseParenToken ")"; block []].
Definition methodNamed (name : string) : Node :=
  node MethodDeclaration [ident name; tok OpenParenToken "("; node SyntaxList [];
                          tok CloseParenToken ")"; block []].
Definition namelessModule : Node :=
  node ModuleDeclaration [tok (OtherToken 1) "namespace"; block []].
Definition moduleNamed (name : string) : Node :=
  node ModuleDeclaration [tok (OtherToken 1) "namespace"; ident name; block []].

End Examples.

(* ================================================================== *)
(** ** The rest of the name resolver *)
(* ================================================================== *)

(** Kinds outside the enumerated ones that the name resolver tests. *)
Definition Constructor : SyntaxKind := OtherKind 101.
Definition InterfaceDeclaration : SyntaxKind := OtherKind 102.
Definition TypeAliasDeclaration : SyntaxKind := OtherKind 103.
Definition JsxOpeningElement : SyntaxKind := OtherKind 104.
Definition JsxSelfClosingElement : SyntaxKind := OtherKind 105.
Definition TypeReference : SyntaxKind := OtherKind 106.
Definition TaggedTemplateExpression : SyntaxKind := OtherKind 107.

Definition isConstructorDeclaration := ts.isKind Constructor.
Definition isInterfaceDeclaration := ts.isKind InterfaceDeclaration.
Definition isTypeAliasDeclaration := ts.isKind TypeAliasDeclaration.
Definition isPropertyAccessExpression := ts.isKind PropertyAccessExpression.
Definition isTypeReferenceNode := ts.isKind TypeReference.
Definition isTaggedTemplateExpression := ts.isKind TaggedTemplateExpression.
Definition isJsxOpeningLikeElement (node : Node) : bool :=
  ts.isKind JsxOpeningElement node || ts.isKind JsxSelfClosingElement node.

Definition getClassExpressionName (node : Node) (variableBeingDefined : option string)
  : Result (option string) :=
  firstChild <- deref (getChildAt node 1) ;;
  if ts.isIdentifier firstChild then Ok (Some (getText firstChild))
  else Ok variableBeingDefined.

Definition getInterfaceDeclarationName (node : Node) : Result string :=
  child <- deref (getChildAt node 1) ;;
  Ok (getText child).

Definition getTypeAliasName (node : Node) : Result string :=
  child <- deref (getChildAt node 1) ;;
  Ok (getText child).

Definition getPropertyAccessName (node : Node) : Result string :=
  let expressionNodes := getChildren node in
  identifier <- deref (nth_error expressionNodes
                                 (Nat.pred (List.length expressionNodes))) ;;
  Ok (getText identifier).

Definition findIntroducedName (node : Node) : Result (option string) :=
  if ts.isClassDeclaration node then Ok (Some (getClassDeclarationName node))
  else if ts.isClassExpression node then getClassExpressionName node None
  else if isConstructorDeclaration node then Ok (Some "constructor")
  else if isInterfaceDeclaration node then
    name <- getInterfaceDeclarationName node ;; Ok (Some name)
  else if isFunctionNode node then
    name <- getFunctionNodeName node None ;; Ok (Some name)
  else Ok None.

Definition chooseContainerName (node : Node) (variableBeingDefined : string)
  : Result (option string) :=
  if isFunctionNode node then
    name <- getFunctionNodeName node (Some variableBeingDefined) ;; Ok (Some name)
  else if ts.isClassDeclaration node then Ok (Some (getClassDeclarationName node))
  else if ts.isClassExpression node then
    getClassExpressionName node (Some variableBeingDefined)
  else
    name <- findIntroducedName node ;;
    match name with
    | Some name => Ok (Some name)
    | None =>
        if ts.isModuleDeclaration node then
          name <- getModuleDeclarationName node ;; Ok (Some name)
        else if isTypeAliasDeclaration node then
          name <- getTypeAliasName node ;; Ok (Some name)
        else Ok None
    end.

Definition getNameIfCalledNode (node : Node) : Result (option string) :=
  if ts.isCallExpression node then
    name <- getCalledFunctionName node ;; Ok (Some name)
  else if ts.isNewExpression node then
    name <- getNewedConstructorName node ;; Ok (Some name)
  else if isPropertyAccessExpression node then
    name <- getPropertyAccessName node ;; Ok (Some name)
  else if isJsxOpeningLikeElement node then
    child <- deref (getChildAt node 1) ;; Ok (Some (getText child))
  else if isTypeReferenceNode node then
    child <- deref (getChildAt node 0) ;; Ok (Some (getText child))
  else if isTaggedTemplateExpression node then
    child <- deref (getChildAt node 0) ;; Ok (Some (getText child))
  else Ok None.

(* ================================================================== *)
(** ** Vocabulary of the further statements *)
(* ================================================================== *)

(** The node kinds for which [chooseContainerName] has a case. *)
Definition isNameableContainer (node : Node) : bool :=
  isFunctionNode node
  || ts.isClassDeclaration node
  || ts.isClassExpression node
  || isConstructorDeclaration node
  || isInterfaceDeclaration node
  || ts.isModuleDeclaration node
  || isTypeAliasDeclaration node.

(** The sum of the scores of a list of reported containers. *)
Definition sumScores (containers : list FunctionOutput) : Z :=
  fold_right (fun container total => fo_score container + total) 0 containers.

(** A reported container whose score is at least zero and at least the
    sum of the scores of the containers reported directly inside it, and
    so on inside them. *)
#[local] Unset Elimination Schemes.
Inductive WellScored : FunctionOutput -> Prop :=
  | WellScored_intro (name : string) (s l c : Z) (containers : list FunctionOutput) :
      0 <= s ->
      sumScores containers <= s ->
      Forall WellScored containers ->
      WellScored (mkFunctionOutput name s l c containers).
#[local] Set Elimination Schemes.

(** The nodes that [nodeCost] can charge: the kinds with an inherent
    cost, the binary expressions, the call expressions and the if
    statements. *)
Definition isChargeable (node : Node) : bool :=
  hasInherentCost node
  || ts.isBinaryExpression node
  || ts.isCallExpression node
  || ts.isIfStatement node.

(** Whether [p] holds of [node] or of a node below it. *)
Fixpoint anyNode (p : Node -> bool) (node : Node) : bool :=
  p node || existsb (anyNode p) (getChildren node).

(** The last element of the context, which
    [aggregateScoreAndInnerForChildren] passes as the name hint. *)
Definition lastNamedAncestor (namedAncestors : list string) : option string :=
  nth_error namedAncestors (Nat.pred (List.length namedAncestors)).

(** The loop of [calcElemCost] and of [calcFileCost] over the children. *)
Fixpoint calcElemCostOfChildren (children : list Node) (acc : ScoreAndInner)
  : Result ScoreAndInner :=
  match children with
  | [] => Ok acc
  | child :: rest =>
      elem <- calcElemCost child 0 ;;
      calcElemCostOfChildren rest {| inner := inner acc ++ [elem];
                                     score := score acc + fo_score elem |}
  end.

(** [lowerThan costOfChild costOfChild' child]: a run of [costOfChild'] on
    [child] that returns is matched by a run of [costOfChild] at a depth
    that is not greater and a top-level flag that is not weaker, which
    returns a score that is not greater. *)
Definition lowerThan (costOfChild costOfChild' : Node -> bool -> Z -> Result ScoreAndInner)
           (child : Node) : Prop :=
  forall (topLevel topLevel' : bool) (depth depth' : Z) (cost' : ScoreAndInner),
    depth <= depth' ->
    (topLevel = false -> topLevel' = false) ->
    costOfChild' child topLevel' depth' = Ok cost' ->
    exists cost : ScoreAndInner,
      costOfChild child topLevel depth = Ok cost /\ score cost <= score cost'.

(** [bareOn newNodeCost child]: every run of [newNodeCost] on [child] that
    returns has no container and a score of at least zero. *)
Definition bareOn (newNodeCost : Node -> Z -> Result ScoreAndInner)
           (child : Node) : Prop :=
  forall depth cost,
    newNodeCost child depth = Ok cost -> inner cost = [] /\ 0 <= score cost.

(* ================================================================== *)
(** * Properties *)
(* ================================================================== *)

Import Tree Examples.

(** ** Basic facts *)

Lemma kind_eqb_eq a b : kind_eqb a b = true <-> a = b.
Proof.
  unfold kind_eqb. destruct (SyntaxKind_eq_dec a b); split; congruence.
Qed.

Lemma kind_eqb_refl a : kind_eqb a a = true.
Proof. apply kind_eqb_eq. reflexivity. Qed.

Lemma kind_eqb_neq a b : kind_eqb a b = false <-> a <> b.
Proof.
  unfold kind_eqb. destruct (SyntaxKind_eq_dec a b); split; congruence.
Qed.

Lemma bind_Ok {A B : Type} (r : Result A) (k : A -> Result B) (b : B) :
  (x <- r ;; k x) = Ok b -> exists a, r = Ok a /\ k a = Ok b.
Proof.
  destruct r as [a | e]; simpl; intros Hk; [eauto | discriminate].
Qed.

(** The loop over the positions of a bucket is the loop of the source
    over the bucket. *)
Lemma aggregateBucket_pick costOfChild ancestors p children :
  forall i localDepth topLevel acc,
    aggregateBucket costOfChild ancestors p i children localDepth topLevel acc
    = aggregateScoreAndInnerForChildren costOfChild ancestors
        (pick p i children) localDepth topLevel acc.
Proof.
  induction children as [| child rest IH]; intros i localDepth topLevel acc; simpl.
  - reflexivity.
  - destruct (p i); simpl.
    + destruct (costOfChild child topLevel localDepth) as [childCost | e]; simpl;
        [| reflexivity].
      destruct (addChildCost ancestors acc child childCost) as [acc' | e]; simpl;
        [apply IH | reflexivity].
    + apply IH.
Qed.

(** [nodeCost], one level unfolded, in the shape of the source. *)
Lemma nodeCost_unfold `{Depth} `{NodeInspection} node parent topLevel depth namedAncestors :
  nodeCost node parent topLevel depth namedAncestors
  = scoreChildrenAt (if topLevel then depth else depth + 1)
                    node parent topLevel depth namedAncestors.
Proof.
  unfold scoreChildrenAt, whereAreChildren; simpl same; simpl below.
  destruct node as [k t l c children].
  cbn [nodeCost].
  destruct (inherentIncrement _ parent namedAncestors) as [inherent | e];
    [| reflexivity].
  cbn [bind].
  destruct (nestingIncrement _ parent depth) as [nesting | e]; [| reflexivity].
  cbn [bind].
  destruct (maybeAddNodeToNamedAncestors _ namedAncestors) as [ancestors | e];
    [| reflexivity].
  cbn [bind getChildren].
  destruct topLevel; rewrite aggregateBucket_pick;
    match goal with
    | |- bind ?r _ = _ => destruct r as [acc | e]; cbn [bind];
                          [apply aggregateBucket_pick | reflexivity]
    end.
Qed.

(** ** Scores are non-negative *)

Lemma recursionIncrement_range name ancestors :
  recursionIncrement name ancestors = 0 \/ recursionIncrement name ancestors = 1.
Proof.
  induction ancestors as [| a rest IH]; simpl; [auto |].
  destruct (String.eqb a name); auto.
Qed.

Lemma soloElseIncrement_range node z :
  soloElseIncrement node = Ok z -> z = 0 \/ z = 1.
Proof.
  unfold soloElseIncrement.
  destruct (findIndex _ _) as [elseIndex |]; [| intros [= <-]; auto].
  destruct (nth_error _ _) as [next |]; simpl; [| discriminate].
  destruct (ts.isIfStatement next); simpl; intros [= <-]; auto.
Qed.

Lemma inherentIncrement_range node parent ancestors z :
  inherentIncrement node parent ancestors = Ok z -> 0 <= z <= 2.
Proof.
  unfold inherentIncrement.
  destruct (hasInherentCost node); [intros [= <-]; lia |].
  intros Hz. apply bind_Ok in Hz. destruct Hz as [starts [_ Hz]].
  destruct starts; cbn iota in Hz; [injection Hz as <-; lia |].
  destruct (ts.isCallExpression node).
  - apply bind_Ok in Hz. destruct Hz as [name [_ [= <-]]].
    destruct (recursionIncrement_range name ancestors) as [-> | ->]; lia.
  - destruct (ts.isIfStatement node); [| injection Hz as <-; lia].
    apply bind_Ok in Hz. destruct Hz as [solo [Hsolo [= <-]]].
    apply soloElseIncrement_range in Hsolo.
    destruct Hsolo as [-> | ->]; simpl; lia.
Qed.

Lemma nestingIncrement_nonneg node parent depth z :
  nestingIncrement node parent depth = Ok z -> 0 <= z.
Proof.
  unfold nestingIncrement.
  destruct (Z.gtb_spec depth 0) as [Hpos | Hnpos]; [| intros [= <-]; lia].
  destruct (hasNestingCost node); [intros [= <-]; lia |].
  destruct (ts.isIfStatement node); [| intros [= <-]; lia].
  destruct parent as [p |]; simpl; [| discriminate].
  destruct (ts.isIfStatement p); simpl; intros [= <-]; lia.
Qed.

Lemma addChildCost_score ancestors acc child childCost acc' :
  addChildCost ancestors acc child childCost = Ok acc' ->
  score acc' = score acc + score childCost.
Proof.
  unfold addChildCost.
  destruct (isFunctionNode child).
  { intros Hk. apply bind_Ok in Hk. destruct Hk as [name [_ [= <-]]]. reflexivity. }
  destruct (ts.isClassDeclaration child); [intros [= <-]; reflexivity |].
  destruct (ts.isModuleDeclaration child); [| intros [= <-]; reflexivity].
  intros Hk. apply bind_Ok in Hk. destruct Hk as [name [_ [= <-]]]. reflexivity.
Qed.

Lemma Forall_pick (P : Node -> Prop) p children :
  Forall P children -> forall i, Forall P (pick p i children).
Proof.
  induction 1 as [| child rest Hchild Hrest IH]; intros i; simpl.
  - constructor.
  - destruct (p i); [constructor; [assumption |] |]; apply IH.
Qed.

Section AggregateNonNegative.
Variable costOfChild : Node -> bool -> Z -> Result ScoreAndInner.
Variable ancestors : list string.

Lemma aggregate_nonneg nodes :
  Forall (nonNegativeOn costOfChild) nodes ->
  forall localDepth topLevel acc acc',
    0 <= score acc ->
    aggregateScoreAndInnerForChildren costOfChild ancestors nodes
                                      localDepth topLevel acc = Ok acc' ->
    0 <= score acc'.
Proof.
  induction 1 as [| child rest Hchild Hrest IH];
    intros localDepth topLevel acc acc' Hacc; simpl.
  - intros [= <-]. assumption.
  - intros Hrun.
    apply bind_Ok in Hrun. destruct Hrun as [childCost [HchildCost Hrun]].
    apply bind_Ok in Hrun. destruct Hrun as [acc1 [Hadd Hrun]].
    apply (IH localDepth topLevel acc1 acc'); [| assumption].
    rewrite (addChildCost_score _ _ _ _ Hadd).
    specialize (Hchild _ _ _ HchildCost). lia.
Qed.
End AggregateNonNegative.

Lemma nodeCost_nonneg `{Depth} `{NodeInspection} node :
  forall parent topLevel depth namedAncestors cost,
    nodeCost node parent topLevel depth namedAncestors = Ok cost ->
    0 <= score cost.
Proof.
  induction node as [k t l c children IH] using Node_ind.
  intros parent topLevel depth namedAncestors cost.
  rewrite nodeCost_unfold. unfold scoreChildrenAt, whereAreChildren.
  cbn [same below getChildren].
  intros Hrun.
  apply bind_Ok in Hrun. destruct Hrun as [inherent [Hinherent Hrun]].
  apply bind_Ok in Hrun. destruct Hrun as [nesting [Hnesting Hrun]].
  apply bind_Ok in Hrun. destruct Hrun as [ancestors [_ Hrun]].
  apply bind_Ok in Hrun. destruct Hrun as [acc [Hsame Hbelow]].
  apply inherentIncrement_range in Hinherent.
  apply nestingIncrement_nonneg in Hnesting.
  assert (Hchildren : forall p i,
             Forall (nonNegativeOn
                       (fun child topLevel localDepth =>
                          nodeCost child
                            (parentOfChildren (mkNode k t l c children) parent)
                            topLevel localDepth ancestors))
                    (pick p i children)).
  { intros p i. apply Forall_pick.
    eapply Forall_impl; [| exact IH].
    intros child Hchild topLevel' localDepth cost'. apply Hchild. }
  eapply aggregate_nonneg; [apply Hchildren | | exact Hbelow].
  eapply aggregate_nonneg; [apply Hchildren | | exact Hsame].
  simpl. lia.
Qed.

Lemma mapM_Forall {A B : Type} (f : A -> Result B) (P : B -> Prop) (l : list A) :
  (forall x y, f x = Ok y -> P y) ->
  forall ys, mapM f l = Ok ys -> Forall P ys.
Proof.
  intros Hf. induction l as [| x rest IH]; simpl; intros ys.
  - intros [= <-]. constructor.
  - intros Hrun.
    apply bind_Ok in Hrun. destruct Hrun as [y [Hy Hrun]].
    apply bind_Ok in Hrun. destruct Hrun as [ys' [Hys [= <-]]].
    constructor; [eapply Hf; eassumption | apply IH; assumption].
Qed.

Lemma fold_left_sum_nonneg (costs : list ScoreAndInner) :
  Forall (fun cost => 0 <= score cost) costs ->
  forall start, 0 <= start -> 0 <= fold_left sum (map score costs) start.
Proof.
  induction 1 as [| cost rest Hcost Hrest IH]; intros start Hstart; simpl.
  - assumption.
  - apply IH. unfold sum. lia.
Qed.

Lemma fileCost_nonneg `{Depth} `{NodeInspection} file report :
  fileCost file = Ok report -> 0 <= score report.
Proof.
  unfold fileCost. intros Hrun.
  apply bind_Ok in Hrun. destruct Hrun as [childCosts [Hcosts [= <-]]].
  simpl. apply fold_left_sum_nonneg; [| lia].
  eapply mapM_Forall; [| exact Hcosts].
  intros elem cost. apply nodeCost_nonneg.
Qed.

(** C6.  For every syntax tree, whatever the partitioner and the
    declaration-name helpers are, a score that [fileCost] returns is a
    non-negative integer, and so is a score that [nodeCost] returns for
    every node, parent, top-level flag, depth and named-ancestor context;
    scoring is deterministic: two runs on the same input have the same
    outcome. *)
Theorem C6_score_nonnegative_and_deterministic `{Depth} `{NodeInspection} :
  (forall file report, fileCost file = Ok report -> 0 <= score report)
  /\ (forall node parent topLevel depth namedAncestors cost,
         nodeCost node parent topLevel depth namedAncestors = Ok cost ->
         0 <= score cost)
  /\ (forall file run1 run2,
         fileCost file = run1 -> fileCost file = run2 -> run1 = run2)
  /\ (forall node parent topLevel depth namedAncestors run1 run2,
         nodeCost node parent topLevel depth namedAncestors = run1 ->
         nodeCost node parent topLevel depth namedAncestors = run2 ->
         run1 = run2).
Proof.
  split; [| split; [| split]].
  - intros file report. apply fileCost_nonneg.
  - intros node. apply nodeCost_nonneg.
  - intros file run1 run2 <- <-. reflexivity.
  - intros node parent topLevel depth namedAncestors run1 run2 <- <-. reflexivity.
Qed.

(** The theorem at the file [if (a) {} else if (b) {} else {}]. *)
Lemma C6_witness :
  fileCost (sourceFile [ifElseIfElse]) = Ok {| inner := []; score := 3 |}
  /\ 0 <= 3.
Proof.
  split; [reflexivity |].
  exact (proj1 (@C6_score_nonnegative_and_deterministic specDepth specNodeInspection)
               (sourceFile [ifElseIfElse]) {| inner := []; score := 3 |} eq_refl).
Defined.

(** ** Nodes whose children cost the same at every depth *)

Lemma addChildCost_plain ancestors acc child childCost :
  isFunctionNode child = false ->
  ts.isClassDeclaration child = false ->
  ts.isModuleDeclaration child = false ->
  addChildCost ancestors acc child childCost
  = Ok {| inner := inner acc ++ inner childCost;
          score := score acc + score childCost |}.
Proof.
  intros Hfunction Hclass Hmodule. unfold addChildCost.
  rewrite Hfunction, Hclass, Hmodule. reflexivity.
Qed.

Lemma nodeCost_token `{Depth} k text l c parent topLevel depth namedAncestors :
  isTokenKind k = true ->
  nodeCost (mkNode k text l c []) parent topLevel depth namedAncestors
  = Ok {| inner := []; score := 0 |}.
Proof.
  intros Htoken.
  destruct k; try discriminate Htoken;
    destruct topLevel; cbn; unfold nestingIncrement;
    destruct (depth >? 0); reflexivity.
Qed.

Lemma sum_pick_partition (p : nat -> bool) (costs : list Z) :
  forall i,
    fold_right Z.add 0 (pick (fun j => negb (p j)) i costs)
    + fold_right Z.add 0 (pick p i costs)
    = fold_right Z.add 0 costs.
Proof.
  induction costs as [| c rest IH]; intros i; simpl; [reflexivity |].
  specialize (IH (S i)).
  destruct (p i); simpl; lia.
Qed.

Lemma aggregate_constant costOfChild ancestors children costs :
  Forall2 (hasConstantCost costOfChild) children costs ->
  forall p i localDepth topLevel acc,
    aggregateScoreAndInnerForChildren costOfChild ancestors (pick p i children)
                                      localDepth topLevel acc
    = Ok {| inner := inner acc;
            score := score acc + fold_right Z.add 0 (pick p i costs) |}.
Proof.
  induction 1 as [| child c children costs [Hplain Hcost] _ IH];
    intros p i localDepth topLevel acc; simpl.
  - destruct acc as [accInner accScore]. simpl. f_equal. f_equal. lia.
  - destruct (p i); [| apply IH].
    simpl. rewrite Hcost. cbn [bind].
    unfold isReportedContainer in Hplain.
    apply orb_false_elim in Hplain. destruct Hplain as [Hplain Hmodule].
    apply orb_false_elim in Hplain. destruct Hplain as [Hfunction Hclass].
    rewrite (addChildCost_plain _ _ _ _ Hfunction Hclass Hmodule). cbn [bind].
    rewrite IH. simpl. f_equal. f_equal; [apply app_nil_r | lia].
Qed.

(** A node whose children each have a cost that depends neither on the
    depth nor on the top-level flag scores its own increments plus these
    costs, whatever the partitioner is. *)
Lemma nodeCost_constant_children `{Depth} `{NodeInspection}
      node parent topLevel depth namedAncestors ancestors inherent nesting costs :
  inherentIncrement node parent namedAncestors = Ok inherent ->
  nestingIncrement node parent depth = Ok nesting ->
  maybeAddNodeToNamedAncestors node namedAncestors = Ok ancestors ->
  Forall2 (hasConstantCost
             (fun child topLevel' localDepth =>
                nodeCost child (parentOfChildren node parent) topLevel'
                         localDepth ancestors))
          (getChildren node) costs ->
  nodeCost node parent topLevel depth namedAncestors
  = Ok {| inner := [];
          score := inherent + nesting + fold_right Z.add 0 costs |}.
Proof.
  intros Hinherent Hnesting Hancestors Hchildren.
  rewrite nodeCost_unfold. unfold scoreChildrenAt, whereAreChildren.
  rewrite Hinherent, Hnesting, Hancestors. cbn [bind same below].
  rewrite (aggregate_constant _ Hchildren). cbn [bind].
  rewrite (aggregate_constant _ Hchildren). cbn [inner score].
  f_equal. f_equal.
  rewrite <- (sum_pick_partition (isBelow node) costs 0). lia.
Qed.

Lemma token_constant `{Depth} k text parent ancestors :
  isTokenKind k = true ->
  hasConstantCost (fun child topLevel localDepth =>
                     nodeCost child parent topLevel localDepth ancestors)
                  (tok k text) 0.
Proof.
  intros Htoken. split.
  - destruct k; try discriminate Htoken; reflexivity.
  - intros topLevel localDepth. unfold tok. apply nodeCost_token. exact Htoken.
Qed.

Lemma nodeCost_total `{Depth} `{NodeInspection}
      node parent topLevel depth namedAncestors ancestors inherent nesting costs total :
  inherentIncrement node parent namedAncestors = Ok inherent ->
  nestingIncrement node parent depth = Ok nesting ->
  maybeAddNodeToNamedAncestors node namedAncestors = Ok ancestors ->
  Forall2 (hasConstantCost
             (fun child topLevel' localDepth =>
                nodeCost child (parentOfChildren node parent) topLevel'
                         localDepth ancestors))
          (getChildren node) costs ->
  total = inherent + nesting + fold_right Z.add 0 costs ->
  nodeCost node parent topLevel depth namedAncestors
  = Ok {| inner := []; score := total |}.
Proof.
  intros Hinherent Hnesting Hancestors Hchildren ->.
  eapply nodeCost_constant_children; eassumption.
Qed.

(** Scores a concrete tree whose nodes cost the same at every depth,
    for an arbitrary partitioner. *)
Ltac nesting_at_any_depth :=
  first [ reflexivity
        | unfold nestingIncrement;
          match goal with |- context [?d >? 0] => destruct (d >? 0) end;
          reflexivity ].

Ltac constant_cost :=
  first [ apply token_constant; reflexivity
        | split; [reflexivity | intros ? ?; node_cost] ]
with node_cost :=
  eapply nodeCost_total;
  [ reflexivity
  | nesting_at_any_depth
  | reflexivity
  | repeat first [ apply Forall2_nil | apply Forall2_cons; [constant_cost |] ]
  | reflexivity ].

(** The score of a source file is the score of its statement list. *)
Lemma fileCost_sourceFile `{Depth} stmts cost :
  nodeCost (node SyntaxList stmts) (Some (sourceFile stmts)) true 0 [] = Ok cost ->
  scoreOf (fileCost (sourceFile stmts)) = Some (score cost).
Proof.
  intros Hcost. unfold fileCost, sourceFile.
  cbn [getChildren node mapM]. fold (sourceFile stmts).
  change (mkNode SyntaxList "" 0 0 stmts) with (node SyntaxList stmts).
  rewrite Hcost. cbn [bind]. unfold tok.
  rewrite nodeCost_token by reflexivity.
  cbn. unfold sum. f_equal. lia.
Qed.

Ltac file_cost :=
  erewrite fileCost_sourceFile by node_cost; reflexivity.

(** ** Depth and top-level flag of the children *)

(** C2, as the code has it.  For every node, [nodeCost] scores the
    children of the bucket [same] at the current depth, with the
    top-level flag unchanged.  When the top-level flag is false the
    children of the bucket [below] are scored at depth + 1; when it is
    true they are scored with the flag false and at the unchanged depth. *)
Theorem C2_children_depth_and_top_level `{Depth} `{NodeInspection} :
  forall node parent depth namedAncestors,
    nodeCost node parent false depth namedAncestors
    = scoreChildrenAt (depth + 1) node parent false depth namedAncestors
    /\ nodeCost node parent true depth namedAncestors
       = scoreChildrenAt depth node parent true depth namedAncestors.
Proof.
  intros node parent depth namedAncestors.
  split; apply nodeCost_unfold.
Qed.

(** C2, as stated, fails: on a first call (top-level flag true) the bucket
    [below] is not scored at depth + 1.  For [if (a) while (b) {}] scored
    with the flag true at depth 0, the loop, which is in the bucket
    [below], is scored at depth 0 and the total is 2; scoring the bucket at
    depth 1 would give 3. *)
Lemma C2_below_not_deeper_at_top_level :
  scoreOf (nodeCost ifWhile None true 0 []) = Some 2
  /\ scoreOf (scoreChildrenAt (0 + 1) ifWhile None true 0 []) = Some 3
  /\ below (whereAreChildren ifWhile) = [while (ident "b") (block [])]
  /\ ~ (forall node parent topLevel depth namedAncestors,
           nodeCost node parent topLevel depth namedAncestors
           = scoreChildrenAt (depth + 1) node parent topLevel depth namedAncestors).
Proof.
  split; [reflexivity |]. split; [reflexivity |]. split; [reflexivity |].
  intros Hclaim.
  specialize (Hclaim ifWhile None true 0 []).
  apply (f_equal scoreOf) in Hclaim.
  vm_compute in Hclaim. discriminate Hclaim.
Qed.

(** ** The if / else-if / else chain *)

(** C1, as stated, fails: [if (a) {} else if (b) {} else {}] at depth 0
    does not score 2. *)
Lemma C1_chain_does_not_score_two :
  scoreOf (nodeCost ifElseIfElse None false 0 []) = Some 3
  /\ scoreOf (nodeCost ifElseIfElse None false 0 []) <> Some 2
  /\ scoreOf (fileCost (sourceFile [ifElseIfElse])) = Some 3.
Proof.
  split; [reflexivity |]. split; [| reflexivity].
  vm_compute. discriminate.
Qed.

(** C1, as the code has it.  Scoring the chain
    [if (a) {} else if (b) {} else {}] at depth 0 yields exactly 3,
    whatever the partitioner is: one for the leading if, one for the if of
    the else-if link and one for the solo terminating else; the else-if
    link gets no nesting increment at any depth, its parent being an if
    statement. *)
Theorem C1_chain_scores_three :
  (forall (partitioner : Depth) parent topLevel namedAncestors,
      scoreOf (nodeCost ifElseIfElse parent topLevel 0 namedAncestors) = Some 3)
  /\ (forall parent namedAncestors,
         inherentIncrement ifElseIfElse parent namedAncestors = Ok 1)
  /\ (forall namedAncestors,
         inherentIncrement (ifThenElse (ident "b") (block []) (block []))
                           (Some ifElseIfElse) namedAncestors = Ok (1 + 1))
  /\ (forall depth,
         nestingIncrement (ifThenElse (ident "b") (block []) (block []))
                          (Some ifElseIfElse) depth = Ok 0).
Proof.
  split; [| split; [| split]].
  - intros partitioner parent topLevel namedAncestors.
    assert (Hcost : nodeCost ifElseIfElse parent topLevel 0 namedAncestors
                    = Ok {| inner := []; score := 3 |}) by node_cost.
    rewrite Hcost. reflexivity.
  - reflexivity.
  - reflexivity.
  - intros depth. nesting_at_any_depth.
Qed.

(** ** The nesting increment *)

Lemma nestingIncrement_spec node p depth :
  nestingIncrement node (Some p) depth
  = Ok (if (depth >? 0)
           && (hasNestingCost node
               || (ts.isIfStatement node && negb (ts.isIfStatement p)))
        then depth else 0).
Proof.
  unfold nestingIncrement.
  destruct (depth >? 0); [| reflexivity].
  destruct (hasNestingCost node); [reflexivity |].
  destruct (ts.isIfStatement node); [| reflexivity].
  simpl. destruct (ts.isIfStatement p); reflexivity.
Qed.

Lemma hasNestingCost_kinds node :
  In (kind node)
     [CatchClause; ConditionalExpression; DoStatement; ForInStatement;
      ForOfStatement; ForStatement; SwitchStatement; WhileStatement] ->
  hasNestingCost node = true.
Proof.
  unfold hasNestingCost, ts.isCatchClause, ts.isConditionalExpression,
    ts.isDoStatement, ts.isForInStatement, ts.isForOfStatement,
    ts.isForStatement, ts.isSwitchStatement, ts.isWhileStatement, ts.isKind.
  simpl.
  intros [<- | [<- | [<- | [<- | [<- | [<- | [<- | [<- | []]]]]]]]];
    rewrite kind_eqb_refl; rewrite ?orb_true_r; reflexivity.
Qed.

Lemma nodeCost_adds_own_increments `{Depth} `{NodeInspection}
      node parent topLevel depth namedAncestors cost :
  nodeCost node parent topLevel depth namedAncestors = Ok cost ->
  exists inherent nesting,
    inherentIncrement node parent namedAncestors = Ok inherent
    /\ nestingIncrement node parent depth = Ok nesting
    /\ inherent + nesting <= score cost.
Proof.
  rewrite nodeCost_unfold. unfold scoreChildrenAt.
  intros Hrun.
  apply bind_Ok in Hrun. destruct Hrun as [inherent [Hinherent Hrun]].
  apply bind_Ok in Hrun. destruct Hrun as [nesting [Hnesting Hrun]].
  apply bind_Ok in Hrun. destruct Hrun as [ancestors [_ Hrun]].
  apply bind_Ok in Hrun. destruct Hrun as [acc [Hsame Hbelow]].
  exists inherent, nesting. split; [assumption |]. split; [assumption |].
  assert (Hgrow : forall nodes localDepth topLevel' acc0 acc1,
             aggregateScoreAndInnerForChildren
               (fun child topLevel localDepth =>
                  nodeCost child (parentOfChildren node parent) topLevel
                           localDepth ancestors)
               ancestors nodes localDepth topLevel' acc0 = Ok acc1 ->
             score acc0 <= score acc1).
  { induction nodes as [| child rest IH]; intros localDepth topLevel' acc0 acc1; simpl.
    - intros [= <-]. lia.
    - intros Hloop.
      apply bind_Ok in Hloop. destruct Hloop as [childCost [HchildCost Hloop]].
      apply bind_Ok in Hloop. destruct Hloop as [acc' [Hadd Hloop]].
      apply IH in Hloop. apply addChildCost_score in Hadd.
      apply nodeCost_nonneg in HchildCost. lia. }
  apply Hgrow in Hsame. apply Hgrow in Hbelow. simpl in Hsame. lia.
Qed.

(** C3.  When depth > 0 the nesting increment of [nodeCost] equals depth
    for catch clauses, conditional expressions, do / for-in / for-of /
    for / switch / while statements, and for an if statement whose parent
    is not an if statement; it is 0 for the if of an else-if, whose parent
    is an if statement, and 0 at depth 0.  [nodeCost] adds it to the
    inherent increment of the node.  Consequently an if with no else
    scores exactly 1 at depth 0, and the same if one level inside the body
    of another if (depth 1, parent the block) scores exactly 2. *)
Theorem C3_nesting_increment :
  (forall node p depth,
      nestingIncrement node (Some p) depth
      = Ok (if (depth >? 0)
               && (hasNestingCost node
                   || (ts.isIfStatement node && negb (ts.isIfStatement p)))
            then depth else 0))
  /\ (forall node parent depth,
         0 < depth ->
         In (kind node)
            [CatchClause; ConditionalExpression; DoStatement; ForInStatement;
             ForOfStatement; ForStatement; SwitchStatement; WhileStatement] ->
         nestingIncrement node parent depth = Ok depth)
  /\ (forall node p depth,
         0 < depth -> kind node = IfStatement -> kind p <> IfStatement ->
         nestingIncrement node (Some p) depth = Ok depth)
  /\ (forall node p depth,
         kind node = IfStatement -> kind p = IfStatement ->
         nestingIncrement node (Some p) depth = Ok 0)
  /\ (forall node parent depth,
         depth <= 0 -> nestingIncrement node parent depth = Ok 0)
  /\ (forall node parent topLevel depth namedAncestors cost,
         nodeCost node parent topLevel depth namedAncestors = Ok cost ->
         exists inherent nesting,
           inherentIncrement node parent namedAncestors = Ok inherent
           /\ nestingIncrement node parent depth = Ok nesting
           /\ inherent + nesting <= score cost)
  /\ (forall (partitioner : Depth) parent topLevel namedAncestors,
         scoreOf (nodeCost ifNoElse parent topLevel 0 namedAncestors) = Some 1)
  /\ (forall (partitioner : Depth) topLevel namedAncestors,
         scoreOf (nodeCost ifNoElse (Some (block [ifNoElse])) topLevel 1
                           namedAncestors) = Some (1 + 1))
  /\ (forall parent namedAncestors,
         scoreOf (@nodeCost specDepth specNodeInspection
                            ifInIf parent false 0 namedAncestors)
         = Some (1 + 2)).
Proof.
  split; [exact nestingIncrement_spec |].
  split.
  { intros node parent depth Hdepth Hkind.
    unfold nestingIncrement.
    destruct (Z.gtb_spec depth 0) as [_ | Hle]; [| lia].
    rewrite (hasNestingCost_kinds node Hkind). reflexivity. }
  split.
  { intros node p depth Hdepth Hnode Hparent.
    rewrite nestingIncrement_spec.
    destruct (Z.gtb_spec depth 0) as [_ | Hle]; [| lia].
    unfold hasNestingCost, ts.isCatchClause, ts.isConditionalExpression,
      ts.isDoStatement, ts.isForInStatement, ts.isForOfStatement,
      ts.isForStatement, ts.isSwitchStatement, ts.isWhileStatement,
      ts.isIfStatement, ts.isKind.
    rewrite Hnode. apply kind_eqb_neq in Hparent. rewrite Hparent.
    reflexivity. }
  split.
  { intros node p depth Hnode Hparent.
    rewrite nestingIncrement_spec.
    unfold hasNestingCost, ts.isCatchClause, ts.isConditionalExpression,
      ts.isDoStatement, ts.isForInStatement, ts.isForOfStatement,
      ts.isForStatement, ts.isSwitchStatement, ts.isWhileStatement,
      ts.isIfStatement, ts.isKind.
    rewrite Hnode, Hparent. simpl. rewrite andb_false_r. reflexivity. }
  split.
  { intros node parent depth Hdepth. unfold nestingIncrement.
    destruct (Z.gtb_spec depth 0) as [Hgt | _]; [lia | reflexivity]. }
  split.
  { intros node parent topLevel depth namedAncestors cost.
    apply nodeCost_adds_own_increments. }
  split.
  { intros partitioner parent topLevel namedAncestors.
    assert (Hcost : nodeCost ifNoElse parent topLevel 0 namedAncestors
                    = Ok {| inner := []; score := 1 |}) by node_cost.
    rewrite Hcost. reflexivity. }
  split.
  { intros partitioner topLevel namedAncestors.
    assert (Hcost : nodeCost ifNoElse (Some (block [ifNoElse])) topLevel 1
                             namedAncestors
                    = Ok {| inner := []; score := 2 |}) by node_cost.
    rewrite Hcost. reflexivity. }
  intros parent namedAncestors; reflexivity.
Qed.

(** The theorem at a catch clause at depth 3, at [if (b) {}] in a block and
    as the if of an else-if at depth 1, and at depth 0. *)
Lemma C3_witness :
  nestingIncrement catchClause None 3 = Ok 3
  /\ nestingIncrement ifNoElse (Some (block [ifNoElse])) 1 = Ok 1
  /\ nestingIncrement ifNoElse (Some elseIfParent) 1 = Ok 0
  /\ nestingIncrement ifNoElse None 0 = Ok 0.
Proof.
  destruct C3_nesting_increment
    as [_ [Hkinds [Hif [HelseIf [Hzero _]]]]].
  split; [| split; [| split]].
  - apply (Hkinds catchClause None 3); [lia | simpl; auto].
  - apply (Hif ifNoElse (block [ifNoElse]) 1);
      [lia | reflexivity | simpl; discriminate].
  - apply (HelseIf ifNoElse elseIfParent 1); reflexivity.
  - apply (Hzero ifNoElse None 0). lia.
Defined.

(** The nested if at other places: as a top-level statement of a file
    the enclosing if is scored with the top-level flag, so its body stays
    at depth 0 and the nested if adds 1; an if that is directly the body
    of another if, without a block, has an if statement as its parent and
    gets no nesting increment. *)
Example nested_if_in_top_level_statement :
  scoreOf (fileCost (sourceFile [ifInIf])) = Some (1 + 1).
Proof. reflexivity. Qed.

Example if_directly_in_if :
  scoreOf (nodeCost (ifThen (ident "a") ifNoElse) None false 0 []) = Some (1 + 1)
  /\ nestingIncrement ifNoElse (Some (ifThen (ident "a") ifNoElse)) 1 = Ok 0.
Proof. split; reflexivity. Qed.

(** ** Runs of one binary operator *)

Lemma operatorRun_snoc op first operands x :
  operatorRun op first (operands ++ [x])
  = binary (operatorRun op first operands) op x.
Proof.
  revert first. induction operands as [| y rest IH]; intros first; simpl.
  - reflexivity.
  - apply IH.
Qed.

Lemma operatorRun_kind op first operands :
  kind (operatorRun op first operands) = kind first
  \/ kind (operatorRun op first operands) = BinaryExpression.
Proof.
  destruct operands as [| x rest] using rev_ind.
  - left. reflexivity.
  - right. rewrite operatorRun_snoc. reflexivity.
Qed.

Lemma operatorRun_reported op first operands :
  isReportedContainer first = false ->
  isReportedContainer (operatorRun op first operands) = false.
Proof.
  intros Hfirst.
  destruct operands as [| x rest] using rev_ind; [exact Hfirst |].
  rewrite operatorRun_snoc. reflexivity.
Qed.

(** The cost of a run, for every partitioner: nothing for a single
    operand, and for a longer run 1 unless the child at position 1 of the
    parent is a token of the kind [op]. *)
Lemma operatorRun_cost `{Depth} op first names :
  isTokenKind op = true ->
  forall p topLevel depth namedAncestors,
    nodeCost (operatorRun op (ident first) (map ident names))
             (Some p) topLevel depth namedAncestors
    = Ok {| inner := [];
            score := match names with
                     | [] => 0
                     | _ :: _ => if parentUses op p then 0 else 1
                     end |}.
Proof.
  intros Htoken.
  induction names as [| x names IH] using rev_ind;
    intros p topLevel depth namedAncestors.
  - cbn [map operatorRun]. unfold ident, tok.
    apply nodeCost_token. reflexivity.
  - rewrite map_app. simpl map. rewrite operatorRun_snoc.
    pose proof (operatorRun_reported op (ident first) (map ident names) eq_refl)
      as Hplain.
    set (run := operatorRun op (ident first) (map ident names)) in *.
    eapply nodeCost_total
      with (inherent := if parentUses op p then 0 else 1)
           (nesting := 0) (costs := [0; 0; 0]).
    + unfold inherentIncrement, parentUses, parentOperatorDiffers.
      change (hasInherentCost (binary run op (ident x))) with false.
      change (ts.isBinaryExpression (binary run op (ident x))) with true.
      change (getChildAt (binary run op (ident x)) 1) with (Some (tok op "")).
      cbn [deref bind]. change (kind (tok op "")) with op.
      destruct (getChildAt p 1) as [parentOperator |];
        [destruct (kind_eqb (kind parentOperator) op) |]; reflexivity.
    + nesting_at_any_depth.
    + reflexivity.
    + repeat apply Forall2_cons; [| | | apply Forall2_nil].
      * split; [exact Hplain |].
        intros topLevel' localDepth. cbv beta.
        change (parentOfChildren (binary run op (ident x)) (Some p))
          with (Some (binary run op (ident x))).
        rewrite IH.
        unfold parentUses. change (getChildAt (binary run op (ident x)) 1)
          with (Some (tok op "")).
        cbn iota. change (kind (tok op "")) with op. rewrite kind_eqb_refl.
        destruct names; reflexivity.
      * apply token_constant. exact Htoken.
      * apply token_constant. reflexivity.
    + destruct names; simpl; destruct (parentUses op p); reflexivity.
Qed.

(** The test that [nodeCost] runs on a binary expression: it is charged
    unless the child at position 1 of its parent has the kind of its own
    operator token. *)
Lemma binaryExpression_increment node p operator namedAncestors :
  ts.isBinaryExpression node = true ->
  getChildAt node 1 = Some operator ->
  inherentIncrement node (Some p) namedAncestors
  = Ok (if parentUses (kind operator) p then 0 else 1).
Proof.
  intros Hbinary Hoperator.
  assert (Hkind : kind node = BinaryExpression) by (apply kind_eqb_eq; exact Hbinary).
  unfold inherentIncrement, parentOperatorDiffers, parentUses.
  rewrite Hbinary, Hoperator.
  replace (hasInherentCost node) with false.
  2:{ unfold hasInherentCost, isBreakOrContinueToLabel,
        ts.isBreakOrContinueStatement, ts.isCatchClause,
        ts.isConditionalExpression, ts.isDoStatement, ts.isForInStatement,
        ts.isForOfStatement, ts.isForStatement, ts.isSwitchStatement,
        ts.isWhileStatement, ts.isKind.
      rewrite Hkind. reflexivity. }
  cbn [deref bind].
  destruct (getChildAt p 1) as [parentOperator |]; cbn [bind].
  - destruct (kind_eqb (kind parentOperator) (kind operator)); cbn [negb];
      [| reflexivity].
    unfold ts.isCallExpression, ts.isIfStatement, ts.isKind.
    rewrite Hkind. reflexivity.
  - reflexivity.
Qed.

(** A run [x0 op x1 op ... op xn] of any length is charged once, when the
    child at position 1 of its parent is not a token of the kind [op]. *)
Lemma operatorRun_charged_once `{Depth}
      op first x names p topLevel depth namedAncestors :
  isTokenKind op = true ->
  parentUses op p = false ->
  scoreOf (nodeCost (operatorRun op (ident first) (map ident (x :: names)))
                    (Some p) topLevel depth namedAncestors) = Some 1.
Proof.
  intros Htoken Hparent.
  rewrite operatorRun_cost by assumption.
  rewrite Hparent. reflexivity.
Qed.

Example operatorRun_of_five :
  scoreOf (nodeCost (exprStatement
                       (operatorRun AmpersandAmpersandToken (ident "a")
                                    (map ident ["b"; "c"; "d"; "e"])))
                    None true 0 []) = Some 1.
Proof. reflexivity. Qed.

(** C4, at the input on which the code leaves the stated rule.  In
    [var x = a = b;] the parent of the binary expression [a = b] is the
    variable declaration [x = a = b], which is not a binary expression,
    so the stated rule charges [a = b]; the code does not charge it,
    because the child at position 1 of the declaration is an equals token
    like the operator of [a = b].  The sequences [a && b && c] and
    [a && b || c] score 1 and 2. *)
Theorem C4_assignment_in_declaration_not_charged :
  ts.isBinaryExpression assignment = true
  /\ ts.isBinaryExpression declaration = false
  /\ parentUses EqualsToken declaration = true
  /\ inherentIncrement assignment (Some declaration) [] = Ok 0
  /\ (forall (partitioner : Depth) topLevel depth namedAncestors,
         scoreOf (nodeCost assignment (Some declaration) topLevel depth
                           namedAncestors) = Some 0)
  /\ (forall partitioner : Depth,
         scoreOf (fileCost (sourceFile [varStatement])) = Some 0)
  /\ (forall partitioner : Depth,
         scoreOf (fileCost (sourceFile [andAnd])) = Some 1)
  /\ (forall partitioner : Depth,
         scoreOf (fileCost (sourceFile [andOr])) = Some 2).
Proof.
  repeat split; try reflexivity.
  - intros partitioner topLevel depth namedAncestors.
    assert (Hcost : nodeCost assignment (Some declaration) topLevel depth
                             namedAncestors
                    = Ok {| inner := []; score := 0 |}) by node_cost.
    rewrite Hcost. reflexivity.
  - intros partitioner. file_cost.
  - intros partitioner. file_cost.
  - intros partitioner. file_cost.
Qed.

(** ** Recursive calls *)

Lemma recursionIncrement_In name ancestors :
  In name ancestors -> recursionIncrement name ancestors = 1.
Proof.
  induction ancestors as [| a rest IH]; simpl; [intros [] |].
  intros [-> | Hin].
  - rewrite String.eqb_refl. reflexivity.
  - destruct (String.eqb a name); [reflexivity | apply IH; exact Hin].
Qed.

Lemma recursionIncrement_not_In name ancestors :
  ~ In name ancestors -> recursionIncrement name ancestors = 0.
Proof.
  induction ancestors as [| a rest IH]; simpl; [reflexivity |].
  intros Hnot.
  destruct (String.eqb_spec a name) as [-> | Hne].
  - exfalso. apply Hnot. left. reflexivity.
  - apply IH. intros Hin. apply Hnot. right. exact Hin.
Qed.

Lemma callExpression_increment node parent namedAncestors :
  ts.isCallExpression node = true ->
  inherentIncrement node parent namedAncestors
  = (calledFunctionName <- getCalledFunctionName node ;;
     Ok (recursionIncrement calledFunctionName namedAncestors)).
Proof.
  intros Hcall.
  assert (Hkind : kind node = CallExpression) by (apply kind_eqb_eq; exact Hcall).
  unfold inherentIncrement.
  replace (hasInherentCost node) with false.
  2:{ unfold hasInherentCost, isBreakOrContinueToLabel,
        ts.isBreakOrContinueStatement, ts.isCatchClause,
        ts.isConditionalExpression, ts.isDoStatement, ts.isForInStatement,
        ts.isForOfStatement, ts.isForStatement, ts.isSwitchStatement,
        ts.isWhileStatement, ts.isKind.
      rewrite Hkind. reflexivity. }
  replace (ts.isBinaryExpression node) with false
    by (unfold ts.isBinaryExpression, ts.isKind; rewrite Hkind; reflexivity).
  cbn [bind]. rewrite Hcall. reflexivity.
Qed.

Lemma callExpression_no_nesting node parent depth :
  ts.isCallExpression node = true ->
  nestingIncrement node parent depth = Ok 0.
Proof.
  intros Hcall.
  assert (Hkind : kind node = CallExpression) by (apply kind_eqb_eq; exact Hcall).
  unfold nestingIncrement, hasNestingCost, ts.isCatchClause,
    ts.isConditionalExpression, ts.isDoStatement, ts.isForInStatement,
    ts.isForOfStatement, ts.isForStatement, ts.isSwitchStatement,
    ts.isWhileStatement, ts.isIfStatement, ts.isKind.
  rewrite Hkind. destruct (depth >? 0); reflexivity.
Qed.

Lemma functionCalling_score f g :
  f <> "" ->
  scoreOf (fileCost (sourceFile [functionCalling f g]))
  = Some (if String.eqb f g then 1 else 0).
Proof.
  intros Hf. destruct f as [| a f']; [congruence |].
  cbn -[String.eqb]. destruct (String.eqb (String a f') g); reflexivity.
Qed.

(** C5.  A call expression adds exactly 1 when its resolved target name
    equals a name of [namedAncestors] (1 and no more, however many
    ancestors match) and 0 when no ancestor name matches; it gets no
    nesting increment.  A function named [f] whose body calls [f] gains 1
    for that call site, and a call to another name gains 0. *)
Theorem C5_recursive_call_increment :
  (forall node parent namedAncestors name,
      ts.isCallExpression node = true ->
      getCalledFunctionName node = Ok name ->
      (In name namedAncestors ->
       inherentIncrement node parent namedAncestors = Ok 1)
      /\ (~ In name namedAncestors ->
          inherentIncrement node parent namedAncestors = Ok 0)
      /\ (forall depth, nestingIncrement node parent depth = Ok 0))
  /\ (forall f g,
         f <> "" ->
         scoreOf (fileCost (sourceFile [functionCalling f g]))
         = Some (if String.eqb f g then 1 else 0))
  /\ scoreOf (fileCost (sourceFile [functionCalling "fact" "fact"])) = Some 1
  /\ scoreOf (fileCost (sourceFile [functionCalling "fact" "log"])) = Some 0
  /\ scoreOf (nodeCost (call (ident "fact") []) None false 0 ["fact"; "fact"])
     = Some 1.
Proof.
  split; [| split; [exact functionCalling_score | repeat split; reflexivity]].
  intros node parent namedAncestors name Hcall Hname.
  rewrite (callExpression_increment node parent namedAncestors Hcall), Hname.
  cbn [bind].
  split; [| split].
  - intros Hin. rewrite (recursionIncrement_In _ _ Hin). reflexivity.
  - intros Hnot. rewrite (recursionIncrement_not_In _ _ Hnot). reflexivity.
  - intros depth. apply callExpression_no_nesting. exact Hcall.
Qed.

(** The theorem at calls to [fact] and to [log] inside [outer] and [fact],
    and at [function fact() { return fact(); }]. *)
Lemma C5_witness :
  inherentIncrement (call (ident "fact") []) None ["outer"; "fact"] = Ok 1
  /\ inherentIncrement (call (ident "log") []) None ["outer"; "fact"] = Ok 0
  /\ scoreOf (fileCost (sourceFile [functionCalling "fact" "fact"]))
     = Some (if String.eqb "fact" "fact" then 1 else 0).
Proof.
  destruct C5_recursive_call_increment as [Hrule [Hexample _]].
  split; [| split].
  - apply (proj1 (Hrule (call (ident "fact") []) None ["outer"; "fact"] "fact"
                          eq_refl eq_refl)).
    simpl. auto.
  - apply (proj1 (proj2 (Hrule (call (ident "log") []) None ["outer"; "fact"] "log"
                                 eq_refl eq_refl))).
    simpl. intros [H | [H | []]]; discriminate H.
  - apply (Hexample "fact" "fact"). discriminate.
Defined.

(** ** The two engines *)

(** C7.  The two engines are not extensionally equivalent: on the file
    [a && b;] both return, [calcFileCost] with the score 0 and [fileCost]
    with the score 1, whatever the partitioner is.  Their rules differ in which constructs trigger a
    nesting increment (a catch clause and a do statement do in [nodeCost]
    and do not in [NodeCost]) and in the condition for an if statement
    (for the if of an else-if, [NodeCost] adds the depth and [nodeCost]
    adds nothing). *)
Theorem C7_engines_diverge :
  (exists file,
      scoreOf (calcFileCost file) = Some 0
      /\ forall partitioner : Depth, scoreOf (fileCost file) = Some 1)
  /\ (forall node parent depth,
         0 < depth ->
         kind node = CatchClause \/ kind node = DoStatement ->
         nestingIncrement node parent depth = Ok depth
         /\ NodeCost_nestingIncrement node depth = 0)
  /\ (forall node p depth,
         0 < depth ->
         kind node = IfStatement -> kind p = IfStatement ->
         nestingIncrement node (Some p) depth = Ok 0
         /\ NodeCost_nestingIncrement node depth = depth).
Proof.
  split; [| split].
  - exists (sourceFile
              [exprStatement (binary (ident "a") AmpersandAmpersandToken (ident "b"))]).
    split; [reflexivity |].
    intros partitioner. file_cost.
  - intros node parent depth Hdepth Hkind.
    unfold nestingIncrement, NodeCost_nestingIncrement.
    destruct (Z.gtb_spec depth 0) as [_ | Hle]; [| lia].
    unfold hasNestingCost, NodeCost_hasNestingCost, ts.isCatchClause,
      ts.isConditionalExpression, ts.isDoStatement, ts.isForInStatement,
      ts.isForOfStatement, ts.isForStatement, ts.isSwitchStatement,
      ts.isWhileStatement, ts.isIfStatement, ts.isKind.
    destruct Hkind as [-> | ->]; split; reflexivity.
  - intros node p depth Hdepth Hnode Hparent.
    rewrite nestingIncrement_spec. unfold NodeCost_nestingIncrement.
    destruct (Z.gtb_spec depth 0) as [_ | Hle]; [| lia].
    unfold hasNestingCost, NodeCost_hasNestingCost, ts.isCatchClause,
      ts.isConditionalExpression, ts.isDoStatement, ts.isForInStatement,
      ts.isForOfStatement, ts.isForStatement, ts.isSwitchStatement,
      ts.isWhileStatement, ts.isIfStatement, ts.isKind.
    rewrite Hnode, Hparent. split; reflexivity.
Qed.

(** The alternate engine also stops on statements that [nodeCost]
    scores: the walk of [IfStatementCost] asks for a child after the
    then-branch of an if without else, and the walk of
    [WhileStatementCost] rejects the while keyword it has just handled. *)
Example alternate_engine_if_without_else :
  calcFileCost (sourceFile [ifNoElse]) = Throw IteratorDone
  /\ scoreOf (fileCost (sourceFile [ifNoElse])) = Some 1.
Proof. split; reflexivity. Qed.

Example alternate_engine_while :
  NodeCost (while (ident "b") (block [])) 0
  = Throw (UnexpectedNodeError (tok WhileKeyword "while"))
  /\ scoreOf (nodeCost (while (ident "b") (block [])) None false 0 []) = Some 1.
Proof. split; reflexivity. Qed.

(** The theorem at a catch clause and at the if of an else-if, depth 2. *)
Lemma C7_witness :
  (nestingIncrement catchClause None 2 = Ok 2
   /\ NodeCost_nestingIncrement catchClause 2 = 0)
  /\ (nestingIncrement ifNoElse (Some elseIfParent) 2 = Ok 0
      /\ NodeCost_nestingIncrement ifNoElse 2 = 2).
Proof.
  destruct C7_engines_diverge as [_ [Hcatch HelseIf]].
  split.
  - apply (Hcatch catchClause None 2); [lia | left; reflexivity].
  - apply (HelseIf ifNoElse elseIfParent 2); [lia | reflexivity | reflexivity].
Defined.

(** ** Name resolution *)

Lemma methodDeclaration_name func hint :
  ts.isMethodDeclaration func = true ->
  getFunctionNodeName func hint
  = match getIdentifier func with
    | Some name => Ok name
    | None => Throw (UnreachableNodeState func "Method has no identifier.")
    end.
Proof.
  intros Hmethod.
  assert (Hkind : kind func = MethodDeclaration)
    by (apply kind_eqb_eq; exact Hmethod).
  unfold getFunctionNodeName, ts.isAccessor, ts.isArrowFunction,
    ts.isFunctionDeclaration, ts.isFunctionExpression, ts.isMethodDeclaration,
    ts.isKind.
  rewrite Hkind. reflexivity.
Qed.

Lemma getFunctionNodeName_unreachable func hint node message :
  isFunctionNode func = true ->
  getFunctionNodeName func hint = Throw (UnreachableNodeState node message) ->
  ts.isMethodDeclaration func = true /\ getIdentifier func = None.
Proof.
  unfold isFunctionNode, getFunctionNodeName.
  destruct (ts.isAccessor func).
  { intros _. destruct (getChildAt func 1); simpl; discriminate. }
  destruct (ts.isArrowFunction func); [discriminate |].
  destruct (ts.isFunctionDeclaration func).
  { intros _. destruct (getChildAt func _); simpl; discriminate. }
  destruct (ts.isFunctionExpression func).
  { intros _. destruct (nth_error (getChildren func) 1) as [maybe |]; simpl;
      [destruct (ts.isIdentifier maybe) |]; discriminate. }
  destruct (ts.isMethodDeclaration func); [| discriminate].
  intros _. destruct (getIdentifier func); [discriminate | auto].
Qed.

Lemma moduleDeclaration_name node :
  getModuleDeclarationName node
  = match find ts.isIdentifier (getChildren node) with
    | Some moduleIdentifier => Ok (getText moduleIdentifier)
    | None => Throw (UnreachableNodeState node "Module declaration has no identifier.")
    end.
Proof.
  unfold getModuleDeclarationName.
  destruct (find ts.isIdentifier (getChildren node)); reflexivity.
Qed.

(** C8.  Name resolution raises the unrecoverable-state error exactly
    when an identifier that the grammar guarantees is absent: a method
    declaration for which [getIdentifier] finds no name raises it, and so
    does a module declaration none of whose children is an identifier;
    when the identifier is present its text is returned; and for a
    function-like node no other case raises this error. *)
Theorem C8_unreachable_node_state :
  (forall func hint,
      ts.isMethodDeclaration func = true ->
      (getIdentifier func = None ->
       getFunctionNodeName func hint
       = Throw (UnreachableNodeState func "Method has no identifier."))
      /\ (forall name,
             getIdentifier func = Some name ->
             getFunctionNodeName func hint = Ok name))
  /\ (forall node,
         (find ts.isIdentifier (getChildren node) = None ->
          getModuleDeclarationName node
          = Throw (UnreachableNodeState node "Module declaration has no identifier."))
         /\ (forall moduleIdentifier,
                find ts.isIdentifier (getChildren node) = Some moduleIdentifier ->
                getModuleDeclarationName node = Ok (getText moduleIdentifier)))
  /\ (forall func hint node message,
         isFunctionNode func = true ->
         getFunctionNodeName func hint = Throw (UnreachableNodeState node message) ->
         ts.isMethodDeclaration func = true /\ getIdentifier func = None).
Proof.
  split; [| split].
  - intros func hint Hmethod.
    rewrite (methodDeclaration_name func hint Hmethod).
    split; [intros -> | intros name ->]; reflexivity.
  - intros node. rewrite moduleDeclaration_name.
    split; [intros -> | intros moduleIdentifier ->]; reflexivity.
  - exact getFunctionNodeName_unreachable.
Qed.

(** The theorem at a method and a module declaration, each without and
    with an identifier. *)
Lemma C8_witness :
  getFunctionNodeName namelessMethod None
  = Throw (UnreachableNodeState namelessMethod "Method has no identifier.")
  /\ getFunctionNodeName (methodNamed "render") None = Ok "render"
  /\ getModuleDeclarationName namelessModule
     = Throw (UnreachableNodeState namelessModule
                                   "Module declaration has no identifier.")
  /\ getModuleDeclarationName (moduleNamed "util") = Ok "util"
  /\ (ts.isMethodDeclaration namelessMethod = true
      /\ getIdentifier namelessMethod = None).
Proof.
  destruct C8_unreachable_node_state as [Hmethod [Hmodule Honly]].
  split; [| split; [| split; [| split]]].
  - apply (proj1 (Hmethod namelessMethod None eq_refl)). reflexivity.
  - apply (proj2 (Hmethod (methodNamed "render") None eq_refl) "render").
    reflexivity.
  - apply (proj1 (Hmodule namelessModule)). reflexivity.
  - apply (proj2 (Hmodule (moduleNamed "util")) (ident "util")). reflexivity.
  - apply (Honly namelessMethod None namelessMethod "Method has no identifier.");
      reflexivity.
Defined.

(** ** Parentheses around the target of a call *)

Lemma getIdentifierDespiteBrackets_parens n expr :
  getIdentifierDespiteBrackets (parens n expr) = getIdentifierDespiteBrackets expr.
Proof.
  induction n as [| n IH]; [reflexivity |].
  simpl parens. rewrite <- IH. reflexivity.
Qed.

(** C9.  Resolving a called name is invariant under redundant
    parentheses around the call target: for every identifier and every
    number [n] of pairs of parentheses around it, [getCalledFunctionName]
    returns the text of the identifier, as it does without parentheses,
    and the increment of the call in [nodeCost] is the one of the call
    without parentheses. *)
Theorem C9_parentheses_unwrapped :
  forall n name l c children text callLine callColumn rest,
    let callee := mkNode Identifier name l c children in
    let wrapped := mkNode CallExpression text callLine callColumn
                          (parens n callee :: rest) in
    let plain := mkNode CallExpression text callLine callColumn (callee :: rest) in
    getCalledFunctionName wrapped = Ok name
    /\ getCalledFunctionName wrapped = getCalledFunctionName plain
    /\ (forall parent namedAncestors,
           inherentIncrement wrapped parent namedAncestors
           = Ok (recursionIncrement name namedAncestors)
           /\ inherentIncrement wrapped parent namedAncestors
              = inherentIncrement plain parent namedAncestors).
Proof.
  intros n name l c children text callLine callColumn rest callee wrapped plain.
  assert (Hwrapped : getCalledFunctionName wrapped = Ok name).
  { unfold getCalledFunctionName, wrapped. cbn [getChildren nth_error deref bind].
    rewrite getIdentifierDespiteBrackets_parens. reflexivity. }
  assert (Hplain : getCalledFunctionName plain = Ok name) by reflexivity.
  split; [exact Hwrapped |].
  split; [rewrite Hwrapped, Hplain; reflexivity |].
  intros parent namedAncestors.
  rewrite !callExpression_increment by reflexivity.
  rewrite Hwrapped, Hplain. split; reflexivity.
Qed.

(** ** Calls whose target is not an identifier *)

Lemma getIdentifierDespiteBrackets_Unwraps expr core :
  Unwraps expr core ->
  getIdentifierDespiteBrackets expr
  = Ok (if ts.isIdentifier core then Some (getText core) else None).
Proof.
  induction 1 as [expr Hplain | expr wrapped core Hparen Hchild _ IH].
  - destruct expr as [k t l c children]. cbn [getIdentifierDespiteBrackets].
    cbn in Hplain.
    destruct (ts.isIdentifier _); [reflexivity |].
    unfold ts.isParenthesizedExpression, ts.isKind. cbn [kind].
    unfold ts.isParenthesizedExpression, ts.isKind in Hplain. cbn [kind] in Hplain.
    rewrite Hplain. reflexivity.
  - destruct expr as [k t l c children]. cbn [getIdentifierDespiteBrackets].
    unfold ts.isParenthesizedExpression, ts.isIdentifier, ts.isKind in *.
    cbn [kind] in *.
    apply kind_eqb_eq in Hparen. subst k. cbn [kind_eqb].
    change (kind_eqb ParenthesizedExpression Identifier) with false.
    change (kind_eqb ParenthesizedExpression ParenthesizedExpression) with true.
    cbn iota. unfold getChildAt in Hchild. cbn [getChildren] in *.
    destruct children as [| first [| second rest]]; try discriminate Hchild.
    cbn in Hchild. injection Hchild as ->. exact IH.
Qed.

(** The function branch of [maybeAddNodeToNamedAncestors] never appends
    an empty name. *)
Lemma maybeAddNodeToNamedAncestors_function_nonempty `{NodeInspection}
      node ancestors ancestors' :
  isNamedDeclarationOfContainer node = false ->
  maybeAddNodeToNamedAncestors node ancestors = Ok ancestors' ->
  ~ In "" ancestors -> ~ In "" ancestors'.
Proof.
  intros Hnamed. unfold maybeAddNodeToNamedAncestors. rewrite Hnamed.
  destruct (isFunctionNode node); [| intros [= <-]; auto].
  intros Hrun. apply bind_Ok in Hrun. destruct Hrun as [name [_ Hrun]].
  destruct name as [| a name']; cbn in Hrun; injection Hrun as <-; [auto |].
  intros Hnot Hin. apply in_app_or in Hin.
  destruct Hin as [Hin | [Hin | []]]; [auto | discriminate Hin].
Qed.

(** C10, as stated, fails: the call [obj.m()], whose target is a property
    access, resolves to the empty name, and it does receive a recursion
    increment when the empty name is among the named ancestors. *)
Lemma C10_empty_name_can_match :
  getCalledFunctionName methodCall = Ok ""
  /\ scoreOf (nodeCost methodCall None false 0 [""]) = Some 1
  /\ ~ (forall namedAncestors,
           scoreOf (nodeCost methodCall None false 0 namedAncestors) = Some 0).
Proof.
  split; [reflexivity |]. split; [reflexivity |].
  intros Hnever. specialize (Hnever [""]).
  vm_compute in Hnever. discriminate Hnever.
Qed.

(** C10, as the code has it.  For a call expression whose target, once
    its parentheses are removed, is not an identifier (a property access,
    say), [getCalledFunctionName] returns the empty string and raises no
    error; such a call receives a recursion increment exactly when the
    empty string is one of the named ancestors, so it receives none in a
    context without empty names; the function branch of
    [maybeAddNodeToNamedAncestors] adds no empty name.  In the same case
    [getNewedConstructorName] raises the unrecoverable-state error. *)
Theorem C10_unresolved_call_target `{NodeInspection} :
  (forall node callee core,
      getChildAt node 0 = Some callee ->
      Unwraps callee core ->
      ts.isIdentifier core = false ->
      getCalledFunctionName node = Ok ""
      /\ (ts.isCallExpression node = true ->
          forall parent namedAncestors,
            (~ In "" namedAncestors ->
             inherentIncrement node parent namedAncestors = Ok 0)
            /\ (In "" namedAncestors ->
                inherentIncrement node parent namedAncestors = Ok 1)))
  /\ (forall node ancestors ancestors',
         isNamedDeclarationOfContainer node = false ->
         maybeAddNodeToNamedAncestors node ancestors = Ok ancestors' ->
         ~ In "" ancestors -> ~ In "" ancestors')
  /\ (forall node callee core,
         getChildAt node 1 = Some callee ->
         Unwraps callee core ->
         ts.isIdentifier core = false ->
         getNewedConstructorName node
         = Throw (UnreachableNodeState
                    node "Newed constructor does not have a name.")).
Proof.
  split; [| split].
  - intros node callee core Hcallee Hunwraps Hcore.
    assert (Hname : getCalledFunctionName node = Ok "").
    { unfold getCalledFunctionName. unfold getChildAt in Hcallee.
      rewrite Hcallee. cbn [deref bind].
      rewrite (getIdentifierDespiteBrackets_Unwraps Hunwraps), Hcore.
      reflexivity. }
    split; [exact Hname |].
    intros Hcall parent namedAncestors.
    rewrite (callExpression_increment node parent namedAncestors Hcall), Hname.
    cbn [bind]. split.
    + intros Hnot. rewrite (recursionIncrement_not_In _ _ Hnot). reflexivity.
    + intros Hin. rewrite (recursionIncrement_In _ _ Hin). reflexivity.
  - intros node ancestors ancestors'.
    apply maybeAddNodeToNamedAncestors_function_nonempty.
  - intros node callee core Hcallee Hunwraps Hcore.
    unfold getNewedConstructorName. rewrite Hcallee. cbn [deref bind].
    rewrite (getIdentifierDespiteBrackets_Unwraps Hunwraps), Hcore.
    reflexivity.
Qed.

(** The theorem at [obj.m()] inside [outer] and [m], and at [new] applied
    to [obj.m]. *)
Lemma C10_witness :
  (getCalledFunctionName methodCall = Ok ""
   /\ inherentIncrement methodCall None ["outer"; "m"] = Ok 0)
  /\ ~ In "" ["outer"]
  /\ getNewedConstructorName newOfProperty
     = Throw (UnreachableNodeState newOfProperty
                                   "Newed constructor does not have a name.").
Proof.
  destruct (@C10_unresolved_call_target specNodeInspection)
    as [Hcall [Hadd Hnew]].
  assert (Hunwraps : Unwraps (propertyAccess (ident "obj") "m")
                             (propertyAccess (ident "obj") "m"))
    by (apply Unwraps_core; reflexivity).
  split; [| split].
  - destruct (Hcall methodCall (propertyAccess (ident "obj") "m")
                    (propertyAccess (ident "obj") "m") eq_refl Hunwraps eq_refl)
      as [Hname Hincrement].
    split; [exact Hname |].
    apply (proj1 (Hincrement eq_refl None ["outer"; "m"])).
    simpl. intros [H0 | [H0 | []]]; discriminate H0.
  - apply (Hadd (functionCalling "outer" "m") [] ["outer"] eq_refl eq_refl).
    simpl. auto.
  - apply (Hnew newOfProperty (propertyAccess (ident "obj") "m")
                (propertyAccess (ident "obj") "m") eq_refl Hunwraps eq_refl).
Defined.

(* ================================================================== *)
(** * Further properties *)
(* ================================================================== *)

(** ** The name resolver *)

(** X1.  [getIdentifierDespiteBrackets] resolves a name only out of an
    identifier: when it returns, the expression unwraps to a core that is
    not parenthesized; the result is the text of the core when the core is
    an identifier and [undefined] otherwise, and conversely. *)
Theorem getIdentifierDespiteBrackets_only_identifiers :
  forall expr result,
    getIdentifierDespiteBrackets expr = Ok result <->
    exists core,
      Unwraps expr core
      /\ result = if ts.isIdentifier core then Some (getText core) else None.
Proof.
  intros expr result. split.
  - revert result.
    induction expr as [k t l c children IH] using Node_ind. intros result.
    cbn [getIdentifierDespiteBrackets].
    destruct (ts.isIdentifier (mkNode k t l c children)) eqn:Hidentifier.
    + intros [= <-]. exists (mkNode k t l c children). split.
      * apply Unwraps_core.
        unfold ts.isIdentifier, ts.isParenthesizedExpression, ts.isKind in *.
        cbn [kind] in *. apply kind_eqb_eq in Hidentifier. subst k. reflexivity.
      * rewrite Hidentifier. reflexivity.
    + destruct (ts.isParenthesizedExpression (mkNode k t l c children)) eqn:Hparen.
      * cbn [getChildren].
        destruct children as [| first [| wrapped rest]]; try discriminate.
        intros Hwrapped.
        apply Forall_inv_tail in IH. apply Forall_inv in IH.
        destruct (IH result Hwrapped) as [core [Hunwraps Hresult]].
        exists core. split; [| exact Hresult].
        eapply Unwraps_paren; [exact Hparen | reflexivity | exact Hunwraps].
      * intros [= <-]. exists (mkNode k t l c children). split.
        -- apply Unwraps_core. exact Hparen.
        -- rewrite Hidentifier. reflexivity.
  - intros [core [Hunwraps ->]].
    apply getIdentifierDespiteBrackets_Unwraps. exact Hunwraps.
Qed.

(** The theorem at [((f))] and at [(obj.m)]. *)
Lemma getIdentifierDespiteBrackets_only_identifiers_witness :
  (exists core,
      Unwraps (parens 2 (ident "f")) core
      /\ Some "f" = if ts.isIdentifier core then Some (getText core) else None)
  /\ getIdentifierDespiteBrackets (paren (propertyAccess (ident "obj") "m")) = Ok None.
Proof.
  split.
  - apply (proj1 (getIdentifierDespiteBrackets_only_identifiers
                    (parens 2 (ident "f")) (Some "f"))).
    reflexivity.
  - apply (proj2 (getIdentifierDespiteBrackets_only_identifiers
                    (paren (propertyAccess (ident "obj") "m")) None)).
    exists (propertyAccess (ident "obj") "m"). split; [| reflexivity].
    eapply Unwraps_paren; [reflexivity | reflexivity |].
    apply Unwraps_core. reflexivity.
Defined.

(** X2.  A call and a [new] expression resolve the same name out of the
    same target: when the target unwraps to an identifier,
    [getNameIfCalledNode] returns the text of that identifier for the call
    (target at position 0) and for the [new] expression (target at
    position 1), whatever the number of parentheses. *)
Theorem getNameIfCalledNode_call_and_new_agree :
  forall call new target core,
    ts.isCallExpression call = true ->
    ts.isNewExpression new = true ->
    getChildAt call 0 = Some target ->
    getChildAt new 1 = Some target ->
    Unwraps target core ->
    ts.isIdentifier core = true ->
    getNameIfCalledNode call = Ok (Some (getText core))
    /\ getNameIfCalledNode new = Ok (Some (getText core)).
Proof.
  intros call new target core Hcall Hnew Hcallee Hnewed Hunwraps Hcore.
  assert (Hnotcall : ts.isCallExpression new = false).
  { unfold ts.isCallExpression, ts.isNewExpression, ts.isKind in *.
    apply kind_eqb_eq in Hnew. rewrite Hnew. reflexivity. }
  unfold getNameIfCalledNode.
  rewrite Hcall, Hnotcall, Hnew.
  unfold getCalledFunctionName, getNewedConstructorName.
  unfold getChildAt in Hcallee. rewrite Hcallee, Hnewed. cbn [deref bind].
  rewrite (getIdentifierDespiteBrackets_Unwraps Hunwraps), Hcore.
  split; reflexivity.
Qed.

(** The theorem at [(f)()] and [new (f)]. *)
Lemma getNameIfCalledNode_call_and_new_agree_witness :
  getNameIfCalledNode (call (paren (ident "f")) []) = Ok (Some "f")
  /\ getNameIfCalledNode
       (node NewExpression [tok NewKeyword "new"; paren (ident "f")])
     = Ok (Some "f").
Proof.
  apply (@getNameIfCalledNode_call_and_new_agree
           (call (paren (ident "f")) [])
           (node NewExpression [tok NewKeyword "new"; paren (ident "f")])
           (paren (ident "f")) (ident "f")); try reflexivity.
  eapply Unwraps_paren; [reflexivity | reflexivity |].
  apply Unwraps_core. reflexivity.
Defined.

Lemma getFunctionNodeName_hint func hint name :
  getFunctionNodeName func None = Ok name ->
  name <> "" ->
  getFunctionNodeName func hint = Ok name.
Proof.
  unfold getFunctionNodeName.
  destruct (ts.isAccessor func); [auto |].
  destruct (ts.isArrowFunction func); [intros [= <-]; congruence |].
  destruct (ts.isFunctionDeclaration func); [auto |].
  destruct (ts.isFunctionExpression func); [| auto].
  destruct (nth_error (getChildren func) 1) as [maybeIdentifier |];
    cbn [deref bind]; [| discriminate].
  destruct (ts.isIdentifier maybeIdentifier); [auto |].
  intros [= <-]; congruence.
Qed.

(** X3.  The name hint never replaces a name that the function has: when
    [getFunctionNodeName] finds a non-empty name without a hint, it
    returns that name with every hint; and whether it returns or throws
    does not depend on the hint. *)
Theorem getFunctionNodeName_own_name_wins :
  (forall func hint name,
      getFunctionNodeName func None = Ok name ->
      name <> "" ->
      getFunctionNodeName func hint = Ok name)
  /\ (forall func hint hint' name,
         getFunctionNodeName func hint = Ok name ->
         exists name', getFunctionNodeName func hint' = Ok name').
Proof.
  split; [exact getFunctionNodeName_hint |].
  intros func hint hint' name. unfold getFunctionNodeName.
  destruct (ts.isAccessor func); [eauto |].
  destruct (ts.isArrowFunction func); [eauto |].
  destruct (ts.isFunctionDeclaration func); [eauto |].
  destruct (ts.isFunctionExpression func); [| eauto].
  destruct (nth_error (getChildren func) 1) as [maybeIdentifier |];
    cbn [deref bind]; [| discriminate].
  destruct (ts.isIdentifier maybeIdentifier); eauto.
Qed.

(** The theorem at [function fact() { return fact(); }] with the hint
    [handler]. *)
Lemma getFunctionNodeName_own_name_wins_witness :
  getFunctionNodeName (functionCalling "fact" "fact") (Some "handler") = Ok "fact"
  /\ exists name',
      getFunctionNodeName (functionCalling "fact" "fact") None = Ok name'.
Proof.
  destruct getFunctionNodeName_own_name_wins as [Hown Hreturns].
  split.
  - apply (Hown (functionCalling "fact" "fact") (Some "handler") "fact");
      [reflexivity | discriminate].
  - apply (Hreturns (functionCalling "fact" "fact") (Some "handler") None "fact").
    reflexivity.
Defined.

Lemma isFunctionNode_kinds node :
  isFunctionNode node = true ->
  ts.isClassDeclaration node = false
  /\ ts.isClassExpression node = false
  /\ isConstructorDeclaration node = false
  /\ isInterfaceDeclaration node = false.
Proof.
  unfold isFunctionNode, ts.isAccessor, ts.isArrowFunction,
    ts.isFunctionDeclaration, ts.isFunctionExpression, ts.isMethodDeclaration,
    ts.isClassDeclaration, ts.isClassExpression, isConstructorDeclaration,
    isInterfaceDeclaration, ts.isKind.
  destruct (kind node); cbn; try discriminate; auto.
Qed.

(** X4.  [chooseContainerName] prefers the name that the node introduces
    to the hint: when [findIntroducedName] finds a non-empty name,
    [chooseContainerName] returns it whatever the variable being defined
    is.  And it answers [undefined] only for a node that is neither
    function-like nor a class, constructor, interface, module or type
    alias. *)
Theorem chooseContainerName_own_name_wins :
  (forall node variableBeingDefined name,
      findIntroducedName node = Ok (Some name) ->
      name <> "" ->
      chooseContainerName node variableBeingDefined = Ok (Some name))
  /\ (forall node variableBeingDefined,
         chooseContainerName node variableBeingDefined = Ok None ->
         isNameableContainer node = false).
Proof.
  split.
  - intros node hint name. unfold chooseContainerName.
    destruct (isFunctionNode node) eqn:Hfunction.
    + destruct (isFunctionNode_kinds node Hfunction)
        as [Hclass [Hexpr [Hconstructor Hinterface]]].
      unfold findIntroducedName.
      rewrite Hclass, Hexpr, Hconstructor, Hinterface, Hfunction.
      intros Hname Hnonempty.
      apply bind_Ok in Hname. destruct Hname as [name' [Hname' [= ->]]].
      rewrite (getFunctionNodeName_hint node (Some hint) Hname' Hnonempty).
      reflexivity.
    + destruct (ts.isClassDeclaration node) eqn:Hclass.
      { unfold findIntroducedName. rewrite Hclass. intros [= <-] _. reflexivity. }
      destruct (ts.isClassExpression node) eqn:Hexpr.
      { unfold findIntroducedName. rewrite Hclass, Hexpr.
        unfold getClassExpressionName.
        destruct (getChildAt node 1) as [firstChild |]; cbn [deref bind];
          [| discriminate].
        destruct (ts.isIdentifier firstChild); [auto | discriminate]. }
      intros -> _. reflexivity.
  - intros node hint. unfold chooseContainerName, isNameableContainer.
    destruct (isFunctionNode node) eqn:Hfunction.
    { intros Hnone. apply bind_Ok in Hnone.
      destruct Hnone as [name [_ Hnone]]. discriminate Hnone. }
    destruct (ts.isClassDeclaration node) eqn:Hclass; [discriminate |].
    destruct (ts.isClassExpression node) eqn:Hexpr.
    { unfold getClassExpressionName.
      destruct (getChildAt node 1) as [firstChild |]; cbn [deref bind];
        [| discriminate].
      destruct (ts.isIdentifier firstChild); discriminate. }
    unfold findIntroducedName. rewrite Hclass, Hexpr, Hfunction.
    destruct (isConstructorDeclaration node); [discriminate |].
    destruct (isInterfaceDeclaration node).
    { intros Hnone. apply bind_Ok in Hnone.
      destruct Hnone as [found [Hfound Hnone]].
      apply bind_Ok in Hfound. destruct Hfound as [name [_ [= <-]]].
      discriminate Hnone. }
    cbn [bind].
    destruct (ts.isModuleDeclaration node).
    { intros Hnone. apply bind_Ok in Hnone.
      destruct Hnone as [name [_ Hnone]]. discriminate Hnone. }
    destruct (isTypeAliasDeclaration node); [| reflexivity].
    intros Hnone. apply bind_Ok in Hnone.
    destruct Hnone as [name [_ Hnone]]. discriminate Hnone.
Qed.

(** The theorem at a method named [render] with the hint [handler], and
    at an identifier. *)
Lemma chooseContainerName_own_name_wins_witness :
  chooseContainerName (methodNamed "render") "handler" = Ok (Some "render")
  /\ isNameableContainer (ident "x") = false.
Proof.
  destruct chooseContainerName_own_name_wins as [Hown Hnone].
  split.
  - apply (Hown (methodNamed "render") "handler" "render");
      [reflexivity | discriminate].
  - apply (Hnone (ident "x") "handler"). reflexivity.
Defined.

(** ** [nodeCost]: lower depth, fewer ancestors, lower score *)

Lemma recursionIncrement_incl name ancestors ancestors' :
  incl ancestors ancestors' ->
  recursionIncrement name ancestors <= recursionIncrement name ancestors'.
Proof.
  intros Hincl.
  destruct (in_dec string_dec name ancestors) as [Hin | Hnot].
  - rewrite (recursionIncrement_In _ _ Hin).
    rewrite (recursionIncrement_In _ _ (Hincl _ Hin)). lia.
  - rewrite (recursionIncrement_not_In _ _ Hnot).
    destruct (recursionIncrement_range name ancestors') as [-> | ->]; lia.
Qed.

Lemma inherentIncrement_mono node parent ancestors ancestors' z' :
  incl ancestors ancestors' ->
  inherentIncrement node parent ancestors' = Ok z' ->
  exists z, inherentIncrement node parent ancestors = Ok z /\ z <= z'.
Proof.
  intros Hincl. unfold inherentIncrement.
  destruct (hasInherentCost node); [intros [= <-]; exists 1; split; [reflexivity | lia] |].
  destruct (if ts.isBinaryExpression node
            then parentOperatorDiffers node parent else Ok false)
    as [starts | e]; cbn [bind]; [| discriminate].
  destruct starts; [intros [= <-]; exists 1; split; [reflexivity | lia] |].
  destruct (ts.isCallExpression node).
  - destruct (getCalledFunctionName node) as [name | e]; cbn [bind]; [| discriminate].
    intros [= <-]. eexists. split; [reflexivity |].
    apply recursionIncrement_incl. exact Hincl.
  - intros Hz. exists z'. split; [exact Hz | lia].
Qed.

Lemma nestingIncrement_mono node parent depth depth' z' :
  depth <= depth' ->
  nestingIncrement node parent depth' = Ok z' ->
  exists z, nestingIncrement node parent depth = Ok z /\ z <= z'.
Proof.
  intros Hdepth Hz'.
  pose proof (nestingIncrement_nonneg _ _ _ Hz') as Hnonneg.
  revert Hz'. unfold nestingIncrement.
  destruct (Z.gtb_spec depth 0) as [Hpos | Hnpos];
    [| intros _; exists 0; split; [reflexivity | exact Hnonneg]].
  destruct (Z.gtb_spec depth' 0) as [_ | Hnpos']; [| lia].
  destruct (hasNestingCost node);
    [intros [= <-]; exists depth; split; [reflexivity | lia] |].
  destruct (ts.isIfStatement node);
    [| intros [= <-]; exists 0; split; [reflexivity | lia]].
  destruct parent as [p |]; cbn [deref bind]; [| discriminate].
  destruct (ts.isIfStatement p); cbn [negb];
    intros [= <-]; eexists; (split; [reflexivity | lia]).
Qed.

Lemma maybeAddNodeToNamedAncestors_mono `{NodeInspection}
      node ancestors ancestors' extended' :
  incl ancestors ancestors' ->
  maybeAddNodeToNamedAncestors node ancestors' = Ok extended' ->
  exists extended,
    maybeAddNodeToNamedAncestors node ancestors = Ok extended
    /\ incl extended extended'.
Proof.
  intros Hincl. unfold maybeAddNodeToNamedAncestors.
  destruct (isNamedDeclarationOfContainer node).
  { destruct (getDeclarationName node) as [name | e]; cbn [bind]; [| discriminate].
    intros [= <-]. eexists. split; [reflexivity |].
    apply incl_app; [apply incl_appl; exact Hincl | apply incl_appr, incl_refl]. }
  destruct (isFunctionNode node); [| intros [= <-]; eauto].
  destruct (getFunctionNodeName node None) as [name | e]; cbn [bind]; [| discriminate].
  destruct (negb (Nat.eqb (String.length name) 0)); intros [= <-];
    eexists; (split; [reflexivity |]); [| exact Hincl].
  apply incl_app; [apply incl_appl; exact Hincl | apply incl_appr, incl_refl].
Qed.

Lemma getFunctionNodeName_returns func hint hint' name :
  getFunctionNodeName func hint = Ok name ->
  exists name', getFunctionNodeName func hint' = Ok name'.
Proof.
  unfold getFunctionNodeName.
  destruct (ts.isAccessor func); [eauto |].
  destruct (ts.isArrowFunction func); [eauto |].
  destruct (ts.isFunctionDeclaration func); [eauto |].
  destruct (ts.isFunctionExpression func); [| eauto].
  destruct (nth_error (getChildren func) 1) as [maybeIdentifier |];
    cbn [deref bind]; [| discriminate].
  destruct (ts.isIdentifier maybeIdentifier); eauto.
Qed.

Lemma addChildCost_returns ancestors ancestors' acc acc' child childCost childCost' out' :
  addChildCost ancestors' acc' child childCost' = Ok out' ->
  exists out, addChildCost ancestors acc child childCost = Ok out.
Proof.
  unfold addChildCost.
  destruct (isFunctionNode child).
  { intros Hout. apply bind_Ok in Hout. destruct Hout as [name [Hname _]].
    destruct (@getFunctionNodeName_returns
                child _
                (nth_error ancestors (Nat.pred (List.length ancestors))) _ Hname)
      as [name' ->].
    cbn [bind]. eauto. }
  destruct (ts.isClassDeclaration child); [eauto |].
  destruct (ts.isModuleDeclaration child); [| eauto].
  destruct (getModuleDeclarationName child); cbn [bind]; [eauto | discriminate].
Qed.

Lemma aggregate_mono costOfChild costOfChild' ancestors ancestors' nodes :
  Forall (lowerThan costOfChild costOfChild') nodes ->
  forall topLevel topLevel' depth depth' acc acc' out',
    depth <= depth' ->
    (topLevel = false -> topLevel' = false) ->
    score acc <= score acc' ->
    aggregateScoreAndInnerForChildren costOfChild' ancestors' nodes
                                      depth' topLevel' acc' = Ok out' ->
    exists out,
      aggregateScoreAndInnerForChildren costOfChild ancestors nodes
                                        depth topLevel acc = Ok out
      /\ score out <= score out'.
Proof.
  induction 1 as [| child rest Hchild _ IH];
    intros topLevel topLevel' depth depth' acc acc' out' Hdepth Hflag Hacc; simpl.
  - intros [= <-]. eauto.
  - intros Hrun.
    apply bind_Ok in Hrun. destruct Hrun as [cost' [Hcost' Hrun]].
    apply bind_Ok in Hrun. destruct Hrun as [next' [Hadd' Hrun]].
    destruct (Hchild topLevel topLevel' depth depth' cost' Hdepth Hflag Hcost')
      as [cost [Hcost Hle]].
    rewrite Hcost. cbn [bind].
    destruct (@addChildCost_returns ancestors _ acc _ _ cost _ _ Hadd')
      as [next Hadd].
    rewrite Hadd. cbn [bind].
    apply (IH topLevel topLevel' depth depth' next next' out' Hdepth Hflag);
      [| exact Hrun].
    rewrite (addChildCost_score _ _ _ _ Hadd), (addChildCost_score _ _ _ _ Hadd').
    lia.
Qed.

Lemma nodeCost_mono `{Depth} `{NodeInspection} node :
  forall parent topLevel topLevel' depth depth' ancestors ancestors' cost',
    depth <= depth' ->
    (topLevel = false -> topLevel' = false) ->
    incl ancestors ancestors' ->
    nodeCost node parent topLevel' depth' ancestors' = Ok cost' ->
    exists cost,
      nodeCost node parent topLevel depth ancestors = Ok cost
      /\ score cost <= score cost'.
Proof.
  induction node as [k t l c children IH] using Node_ind.
  intros parent topLevel topLevel' depth depth' ancestors ancestors' cost'
         Hdepth Hflag Hincl.
  rewrite !nodeCost_unfold. unfold scoreChildrenAt, whereAreChildren.
  cbn [same below getChildren].
  intros Hrun.
  apply bind_Ok in Hrun. destruct Hrun as [inherent' [Hinherent' Hrun]].
  apply bind_Ok in Hrun. destruct Hrun as [nesting' [Hnesting' Hrun]].
  apply bind_Ok in Hrun. destruct Hrun as [extended' [Hextended' Hrun]].
  apply bind_Ok in Hrun. destruct Hrun as [acc' [Hsame' Hbelow']].
  destruct (inherentIncrement_mono _ _ Hincl Hinherent') as [inherent [-> Hi]].
  destruct (nestingIncrement_mono _ _ Hdepth Hnesting') as [nesting [-> Hn]].
  destruct (maybeAddNodeToNamedAncestors_mono _ Hincl Hextended')
    as [extended [-> Hextended]].
  cbn [bind].
  set (node := mkNode k t l c children) in *.
  assert (Hchildren :
            forall p i,
              Forall (lowerThan
                        (fun child topLevel localDepth =>
                           nodeCost child (parentOfChildren node parent)
                                    topLevel localDepth extended)
                        (fun child topLevel localDepth =>
                           nodeCost child (parentOfChildren node parent)
                                    topLevel localDepth extended'))
                     (pick p i children)).
  { intros p i. apply Forall_pick.
    eapply Forall_impl; [| exact IH].
    intros child Hchild tl tl' d d' childCost' Hd Hf HchildCost'.
    exact (Hchild _ tl tl' d d' extended extended' childCost' Hd Hf Hextended
                  HchildCost'). }
  assert (Hstart : score (mkScoreAndInner [] (inherent + nesting))
                   <= score (mkScoreAndInner [] (inherent' + nesting')))
    by (simpl; lia).
  destruct (@aggregate_mono _ _ extended extended' _ (Hchildren _ _)
                            topLevel topLevel' depth depth' _ _ _
                            Hdepth Hflag Hstart Hsame')
    as [acc [-> Hacc]].
  cbn [bind].
  assert (Hbelow : (if topLevel then depth else depth + 1)
                   <= (if topLevel' then depth' else depth' + 1)).
  { destruct topLevel, topLevel'; try lia;
      specialize (Hflag eq_refl); discriminate Hflag. }
  exact (@aggregate_mono _ _ extended extended' _ (Hchildren _ _)
                         false false _ _ acc acc' cost'
                         Hbelow (fun E => E) Hacc Hbelow').
Qed.

(** X5.  Lowering the depth, raising the top-level flag or dropping named
    ancestors never raises the score of [nodeCost] and never turns a run
    that returns into one that throws: when the run at the greater depth,
    the weaker flag and the larger context returns, so does the other,
    with a score that is not greater.  This holds for every partitioner
    and every pair of declaration-name helpers. *)
Theorem nodeCost_monotone `{Depth} `{NodeInspection} :
  forall node parent topLevel topLevel' depth depth' ancestors ancestors' cost',
    depth <= depth' ->
    (topLevel = false -> topLevel' = false) ->
    incl ancestors ancestors' ->
    nodeCost node parent topLevel' depth' ancestors' = Ok cost' ->
    exists cost,
      nodeCost node parent topLevel depth ancestors = Ok cost
      /\ score cost <= score cost'.
Proof.
  intros node. apply nodeCost_mono.
Qed.

(** The theorem at [if (a) { if (b) {} }], from depth 1 without the flag
    to depth 0 with it. *)
Lemma nodeCost_monotone_witness :
  exists cost,
    nodeCost ifInIf (Some (sourceFile [ifInIf])) true 0 [] = Ok cost
    /\ score cost <= 5.
Proof.
  apply (@nodeCost_monotone specDepth specNodeInspection
           ifInIf (Some (sourceFile [ifInIf])) true false 0 1 [] ["f"]
           {| inner := []; score := 5 |}).
  - lia.
  - discriminate.
  - intros name [].
  - reflexivity.
Defined.

(** ** The report: scores of the containers *)

Lemma sumScores_app containers containers' :
  sumScores (containers ++ containers')
  = sumScores containers + sumScores containers'.
Proof.
  induction containers as [| container rest IH]; simpl; [reflexivity |].
  unfold sumScores in *. simpl. rewrite IH. lia.
Qed.

Lemma addChildCost_wellScored ancestors acc child childCost out :
  sumScores (inner acc) <= score acc ->
  Forall WellScored (inner acc) ->
  0 <= score childCost ->
  sumScores (inner childCost) <= score childCost ->
  Forall WellScored (inner childCost) ->
  addChildCost ancestors acc child childCost = Ok out ->
  sumScores (inner out) <= score out /\ Forall WellScored (inner out).
Proof.
  intros Hsum Hall Hnonneg Hsum' Hall'.
  assert (Hentry : forall name,
             sumScores (inner acc ++
                        [mkFunctionOutput name (score childCost)
                                          (snd (getColumnAndLine child))
                                          (fst (getColumnAndLine child))
                                          (inner childCost)])
             <= score acc + score childCost
             /\ Forall WellScored
                       (inner acc ++
                        [mkFunctionOutput name (score childCost)
                                          (snd (getColumnAndLine child))
                                          (fst (getColumnAndLine child))
                                          (inner childCost)])).
  { intros name. split.
    - rewrite sumScores_app. unfold sumScores at 2. simpl. lia.
    - apply Forall_app. split; [exact Hall |].
      constructor; [| constructor].
      constructor; assumption. }
  unfold addChildCost.
  destruct (isFunctionNode child).
  { intros Hout. apply bind_Ok in Hout. destruct Hout as [name [_ [= <-]]].
    apply Hentry. }
  destruct (ts.isClassDeclaration child); [intros [= <-]; apply Hentry |].
  destruct (ts.isModuleDeclaration child).
  { intros Hout. apply bind_Ok in Hout. destruct Hout as [name [_ [= <-]]].
    apply Hentry. }
  intros [= <-]. simpl. split.
  - rewrite sumScores_app. lia.
  - apply Forall_app. split; assumption.
Qed.

Lemma aggregate_wellScored costOfChild ancestors nodes :
  Forall (fun child =>
            forall topLevel localDepth cost,
              costOfChild child topLevel localDepth = Ok cost ->
              0 <= score cost
              /\ sumScores (inner cost) <= score cost
              /\ Forall WellScored (inner cost)) nodes ->
  forall localDepth topLevel acc out,
    sumScores (inner acc) <= score acc ->
    Forall WellScored (inner acc) ->
    aggregateScoreAndInnerForChildren costOfChild ancestors nodes
                                      localDepth topLevel acc = Ok out ->
    sumScores (inner out) <= score out /\ Forall WellScored (inner out).
Proof.
  induction 1 as [| child rest Hchild _ IH];
    intros localDepth topLevel acc out Hsum Hall; simpl.
  - intros [= <-]. auto.
  - intros Hrun.
    apply bind_Ok in Hrun. destruct Hrun as [cost [Hcost Hrun]].
    apply bind_Ok in Hrun. destruct Hrun as [next [Hadd Hrun]].
    destruct (Hchild _ _ _ Hcost) as [Hnonneg [Hsum' Hall']].
    destruct (addChildCost_wellScored _ _ _ _ Hsum Hall Hnonneg Hsum' Hall' Hadd)
      as [Hsum1 Hall1].
    exact (IH _ _ _ _ Hsum1 Hall1 Hrun).
Qed.

Lemma nodeCost_wellScored `{Depth} `{NodeInspection} node :
  forall parent topLevel depth namedAncestors cost,
    nodeCost node parent topLevel depth namedAncestors = Ok cost ->
    0 <= score cost
    /\ sumScores (inner cost) <= score cost
    /\ Forall WellScored (inner cost).
Proof.
  induction node as [k t l c children IH] using Node_ind.
  intros parent topLevel depth namedAncestors cost Hrun.
  split; [exact (nodeCost_nonneg _ _ _ _ _ Hrun) |].
  revert Hrun.
  rewrite nodeCost_unfold. unfold scoreChildrenAt, whereAreChildren.
  cbn [same below getChildren].
  intros Hrun.
  apply bind_Ok in Hrun. destruct Hrun as [inherent [Hinherent Hrun]].
  apply bind_Ok in Hrun. destruct Hrun as [nesting [Hnesting Hrun]].
  apply bind_Ok in Hrun. destruct Hrun as [ancestors [_ Hrun]].
  apply bind_Ok in Hrun. destruct Hrun as [acc [Hsame Hbelow]].
  apply inherentIncrement_range in Hinherent.
  apply nestingIncrement_nonneg in Hnesting.
  assert (Hchildren :
            forall p i,
              Forall (fun child =>
                        forall topLevel localDepth cost,
                          nodeCost child
                                   (parentOfChildren (mkNode k t l c children) parent)
                                   topLevel localDepth ancestors = Ok cost ->
                          0 <= score cost
                          /\ sumScores (inner cost) <= score cost
                          /\ Forall WellScored (inner cost))
                     (pick p i children)).
  { intros p i. apply Forall_pick.
    eapply Forall_impl; [| exact IH].
    intros child Hchild tl d childCost. apply Hchild. }
  assert (Hacc : sumScores (inner acc) <= score acc
                 /\ Forall WellScored (inner acc)).
  { eapply aggregate_wellScored; [apply Hchildren | | | exact Hsame].
    - unfold sumScores. simpl. lia.
    - constructor. }
  destruct Hacc as [Hsum Hall].
  eapply aggregate_wellScored; [apply Hchildren | exact Hsum | exact Hall | exact Hbelow].
Qed.

Lemma fold_left_sum_start (scores : list Z) :
  forall start, fold_left sum scores start = start + fold_right Z.add 0 scores.
Proof.
  induction scores as [| s rest IH]; intros start; simpl; [lia |].
  rewrite IH. unfold sum. lia.
Qed.

(** X6.  The report is consistent: the score that [nodeCost] returns is at
    least the sum of the scores of the containers it reports, and every
    reported container, at every level, has a score of at least zero that
    is at least the sum of the scores of the containers directly inside
    it.  The same holds of the report of [fileCost]. *)
Theorem report_well_scored `{Depth} `{NodeInspection} :
  (forall node parent topLevel depth namedAncestors cost,
      nodeCost node parent topLevel depth namedAncestors = Ok cost ->
      sumScores (inner cost) <= score cost
      /\ Forall WellScored (inner cost))
  /\ (forall file report,
         fileCost file = Ok report ->
         sumScores (inner report) <= score report
         /\ Forall WellScored (inner report)).
Proof.
  split.
  - intros node parent topLevel depth namedAncestors cost Hrun.
    apply (nodeCost_wellScored node) in Hrun. tauto.
  - intros file report. unfold fileCost. intros Hrun.
    apply bind_Ok in Hrun. destruct Hrun as [childCosts [Hcosts [= <-]]].
    cbn [inner score].
    assert (Hall : Forall (fun cost => 0 <= score cost
                                       /\ sumScores (inner cost) <= score cost
                                       /\ Forall WellScored (inner cost))
                          childCosts).
    { eapply mapM_Forall; [| exact Hcosts].
      intros elem cost. apply nodeCost_wellScored. }
    rewrite fold_left_sum_start.
    clear Hcosts. induction Hall as [| cost rest [_ [Hsum Hws]] _ [IHsum IHws]].
    + simpl. split; [unfold sumScores; simpl; lia | constructor].
    + simpl. split.
      * rewrite sumScores_app. lia.
      * apply Forall_app. split; assumption.
Qed.

(** The theorem at [function fact() { return fact(); }]. *)
Lemma report_well_scored_witness :
  sumScores [mkFunctionOutput "fact" 1 0 0 []] <= 1
  /\ Forall WellScored [mkFunctionOutput "fact" 1 0 0 []].
Proof.
  exact (proj2 (@report_well_scored specDepth specNodeInspection)
               (sourceFile [functionCalling "fact" "fact"])
               {| inner := [mkFunctionOutput "fact" 1 0 0 []]; score := 1 |}
               eq_refl).
Defined.

(** ** The report: which containers are listed *)

Lemma aggregate_inner_grows costOfChild ancestors nodes :
  forall localDepth topLevel acc out,
    aggregateScoreAndInnerForChildren costOfChild ancestors nodes
                                      localDepth topLevel acc = Ok out ->
    forall container, In container (inner acc) -> In container (inner out).
Proof.
  induction nodes as [| child rest IH]; intros localDepth topLevel acc out; simpl.
  - intros [= <-]. auto.
  - intros Hrun container Hin.
    apply bind_Ok in Hrun. destruct Hrun as [cost [_ Hrun]].
    apply bind_Ok in Hrun. destruct Hrun as [next [Hadd Hrun]].
    apply (IH _ _ _ _ Hrun).
    revert Hadd. unfold addChildCost.
    destruct (isFunctionNode child).
    { intros Hadd. apply bind_Ok in Hadd. destruct Hadd as [name [_ [= <-]]].
      simpl. apply in_or_app. auto. }
    destruct (ts.isClassDeclaration child);
      [intros [= <-]; simpl; apply in_or_app; auto |].
    destruct (ts.isModuleDeclaration child).
    { intros Hadd. apply bind_Ok in Hadd. destruct Hadd as [name [_ [= <-]]].
      simpl. apply in_or_app. auto. }
    intros [= <-]. simpl. apply in_or_app. auto.
Qed.

Lemma addChildCost_reports ancestors acc child childCost out :
  isReportedContainer child = true ->
  addChildCost ancestors acc child childCost = Ok out ->
  exists container,
    In container (inner out)
    /\ fo_score container = score childCost
    /\ fo_inner container = inner childCost
    /\ fo_line container = line child
    /\ fo_column container = column child
    /\ (isFunctionNode child = true ->
        getFunctionNodeName child (lastNamedAncestor ancestors)
        = Ok (fo_name container))
    /\ (isFunctionNode child = false -> ts.isClassDeclaration child = true ->
        fo_name container = getClassDeclarationName child)
    /\ (isFunctionNode child = false -> ts.isClassDeclaration child = false ->
        getModuleDeclarationName child = Ok (fo_name container)).
Proof.
  unfold isReportedContainer, addChildCost, lastNamedAncestor.
  destruct (isFunctionNode child).
  { intros _ Hout. apply bind_Ok in Hout. destruct Hout as [name [Hname [= <-]]].
    eexists. split; [simpl; apply in_or_app; right; left; reflexivity |].
    simpl. repeat split; try discriminate. intros _. exact Hname. }
  destruct (ts.isClassDeclaration child).
  { intros _ [= <-].
    eexists. split; [simpl; apply in_or_app; right; left; reflexivity |].
    simpl. repeat split; try discriminate. }
  destruct (ts.isModuleDeclaration child); [| discriminate].
  intros _ Hout. apply bind_Ok in Hout. destruct Hout as [name [Hname [= <-]]].
  eexists. split; [simpl; apply in_or_app; right; left; reflexivity |].
  simpl. repeat split; try discriminate. intros _ _. exact Hname.
Qed.

Lemma aggregate_reports costOfChild ancestors nodes child :
  In child nodes ->
  isReportedContainer child = true ->
  forall localDepth topLevel acc out,
    aggregateScoreAndInnerForChildren costOfChild ancestors nodes
                                      localDepth topLevel acc = Ok out ->
    exists container childCost,
      In container (inner out)
      /\ costOfChild child topLevel localDepth = Ok childCost
      /\ fo_score container = score childCost
      /\ fo_inner container = inner childCost
      /\ fo_line container = line child
      /\ fo_column container = column child
      /\ (isFunctionNode child = true ->
          getFunctionNodeName child (lastNamedAncestor ancestors)
          = Ok (fo_name container))
      /\ (isFunctionNode child = false -> ts.isClassDeclaration child = true ->
          fo_name container = getClassDeclarationName child)
      /\ (isFunctionNode child = false -> ts.isClassDeclaration child = false ->
          getModuleDeclarationName child = Ok (fo_name container)).
Proof.
  intros Hin Hcontainer.
  induction nodes as [| first rest IH]; [destruct Hin |].
  intros localDepth topLevel acc out. simpl. intros Hrun.
  apply bind_Ok in Hrun. destruct Hrun as [cost [Hcost Hrun]].
  apply bind_Ok in Hrun. destruct Hrun as [next [Hadd Hrun]].
  destruct Hin as [-> | Hin].
  - destruct (addChildCost_reports _ _ _ _ Hcontainer Hadd)
      as [container [Hlisted Hfacts]].
    exists container, cost.
    split; [exact (aggregate_inner_grows _ _ _ _ _ _ Hrun _ Hlisted) |].
    split; [exact Hcost | exact Hfacts].
  - exact (IH Hin _ _ _ _ Hrun).
Qed.

Lemma In_pick {A : Type} (p : nat -> bool) (x : A) (l : list A) :
  In x l ->
  forall i, In x (pick (fun j => negb (p j)) i l) \/ In x (pick p i l).
Proof.
  induction l as [| y rest IH]; [intros [] |].
  intros [-> | Hin] i; simpl.
  - destruct (p i); simpl; auto.
  - destruct (IH Hin (S i)) as [Hsame | Hbelow]; destruct (p i); simpl; auto.
Qed.

Lemma nodeCost_reports `{Depth} `{NodeInspection}
      node parent topLevel depth namedAncestors cost child :
  nodeCost node parent topLevel depth namedAncestors = Ok cost ->
  In child (getChildren node) ->
  isReportedContainer child = true ->
  exists ancestors container topLevel' depth' childCost,
    maybeAddNodeToNamedAncestors node namedAncestors = Ok ancestors
    /\ In container (inner cost)
    /\ nodeCost child (parentOfChildren node parent) topLevel' depth' ancestors
       = Ok childCost
    /\ fo_score container = score childCost
    /\ fo_inner container = inner childCost
    /\ fo_line container = line child
    /\ fo_column container = column child
    /\ (isFunctionNode child = true ->
        getFunctionNodeName child (lastNamedAncestor ancestors)
        = Ok (fo_name container))
    /\ (isFunctionNode child = false -> ts.isClassDeclaration child = true ->
        fo_name container = getClassDeclarationName child)
    /\ (isFunctionNode child = false -> ts.isClassDeclaration child = false ->
        getModuleDeclarationName child = Ok (fo_name container)).
Proof.
  rewrite nodeCost_unfold. unfold scoreChildrenAt, whereAreChildren.
  cbn [same below].
  intros Hrun Hin Hcontainer.
  apply bind_Ok in Hrun. destruct Hrun as [inherent [_ Hrun]].
  apply bind_Ok in Hrun. destruct Hrun as [nesting [_ Hrun]].
  apply bind_Ok in Hrun. destruct Hrun as [ancestors [Hancestors Hrun]].
  apply bind_Ok in Hrun. destruct Hrun as [acc [Hsame Hbelow]].
  exists ancestors.
  destruct (In_pick (isBelow node) _ _ Hin 0%nat) as [Hpicked | Hpicked].
  - destruct (aggregate_reports _ _ _ _ Hpicked Hcontainer _ _ _ Hsame)
      as [container [childCost [Hlisted Hfacts]]].
    exists container, topLevel, depth, childCost.
    split; [exact Hancestors |].
    split; [exact (aggregate_inner_grows _ _ _ _ _ _ Hbelow _ Hlisted) |].
    exact Hfacts.
  - destruct (aggregate_reports _ _ _ _ Hpicked Hcontainer _ _ _ Hbelow)
      as [container [childCost [Hlisted Hfacts]]].
    exists container, false, (if topLevel then depth else depth + 1), childCost.
    split; [exact Hancestors |].
    split; [exact Hlisted | exact Hfacts].
Qed.

(** X7.  Every child of a node that is function-like, a class declaration
    or a module declaration is listed among the containers that
    [nodeCost] reports for the node: with the line and column of the
    child, with the score and the containers of the run of [nodeCost] on
    the child in the context extended by the node, and under the name
    that [getFunctionNodeName] (with the last named ancestor as hint),
    [getClassDeclarationName] or [getModuleDeclarationName] gives it. *)
Theorem nodeCost_reports_container_children `{Depth} `{NodeInspection} :
  forall node parent topLevel depth namedAncestors cost child,
    nodeCost node parent topLevel depth namedAncestors = Ok cost ->
    In child (getChildren node) ->
    isReportedContainer child = true ->
    exists ancestors container topLevel' depth' childCost,
      maybeAddNodeToNamedAncestors node namedAncestors = Ok ancestors
      /\ In container (inner cost)
      /\ nodeCost child (parentOfChildren node parent) topLevel' depth' ancestors
         = Ok childCost
      /\ fo_score container = score childCost
      /\ fo_inner container = inner childCost
      /\ fo_line container = line child
      /\ fo_column container = column child
      /\ (isFunctionNode child = true ->
          getFunctionNodeName child (lastNamedAncestor ancestors)
          = Ok (fo_name container))
      /\ (isFunctionNode child = false -> ts.isClassDeclaration child = true ->
          fo_name container = getClassDeclarationName child)
      /\ (isFunctionNode child = false -> ts.isClassDeclaration child = false ->
          getModuleDeclarationName child = Ok (fo_name container)).
Proof.
  intros node parent topLevel depth namedAncestors cost child.
  apply nodeCost_reports.
Qed.

(** The theorem at the statement list that holds
    [function fact() { return fact(); }]. *)
Lemma nodeCost_reports_container_children_witness :
  exists ancestors container topLevel' depth' childCost,
    maybeAddNodeToNamedAncestors
      (node SyntaxList [functionCalling "fact" "fact"]) [] = Ok ancestors
    /\ In container [mkFunctionOutput "fact" 1 0 0 []]
    /\ nodeCost (functionCalling "fact" "fact")
                (parentOfChildren (node SyntaxList [functionCalling "fact" "fact"])
                                  None)
                topLevel' depth' ancestors = Ok childCost
    /\ fo_score container = score childCost
    /\ fo_inner container = inner childCost
    /\ fo_line container = line (functionCalling "fact" "fact")
    /\ fo_column container = column (functionCalling "fact" "fact")
    /\ (isFunctionNode (functionCalling "fact" "fact") = true ->
        getFunctionNodeName (functionCalling "fact" "fact")
                            (lastNamedAncestor ancestors)
        = Ok (fo_name container))
    /\ (isFunctionNode (functionCalling "fact" "fact") = false ->
        ts.isClassDeclaration (functionCalling "fact" "fact") = true ->
        fo_name container = getClassDeclarationName (functionCalling "fact" "fact"))
    /\ (isFunctionNode (functionCalling "fact" "fact") = false ->
        ts.isClassDeclaration (functionCalling "fact" "fact") = false ->
        getModuleDeclarationName (functionCalling "fact" "fact")
        = Ok (fo_name container)).
Proof.
  apply (@nodeCost_reports_container_children specDepth specNodeInspection
           (node SyntaxList [functionCalling "fact" "fact"]) None true 0 []
           {| inner := [mkFunctionOutput "fact" 1 0 0 []]; score := 1 |}
           (functionCalling "fact" "fact")).
  - reflexivity.
  - simpl. auto.
  - reflexivity.
Defined.




(** ** Code that is never charged *)

Lemma inherentIncrement_plain node parent namedAncestors :
  isChargeable node = false ->
  inherentIncrement node parent namedAncestors = Ok 0.
Proof.
  unfold isChargeable, inherentIncrement. intros Hplain.
  apply orb_false_elim in Hplain. destruct Hplain as [Hplain Hif].
  apply orb_false_elim in Hplain. destruct Hplain as [Hplain Hcall].
  apply orb_false_elim in Hplain. destruct Hplain as [Hinherent Hbinary].
  rewrite Hinherent, Hbinary. cbn [bind]. rewrite Hcall, Hif. reflexivity.
Qed.

Lemma nestingIncrement_plain node parent depth :
  isChargeable node = false ->
  nestingIncrement node parent depth = Ok 0.
Proof.
  unfold isChargeable, nestingIncrement. intros Hplain.
  apply orb_false_elim in Hplain. destruct Hplain as [Hplain Hif].
  apply orb_false_elim in Hplain. destruct Hplain as [Hplain _].
  apply orb_false_elim in Hplain. destruct Hplain as [Hinherent _].
  unfold hasInherentCost in Hinherent.
  apply orb_false_elim in Hinherent. destruct Hinherent as [Hnesting _].
  fold (hasNestingCost node) in Hnesting.
  rewrite Hnesting, Hif. destruct (depth >? 0); reflexivity.
Qed.

Lemma existsb_false_Forall {A : Type} (p : A -> bool) (l : list A) :
  existsb p l = false -> Forall (fun x => p x = false) l.
Proof.
  induction l as [| x rest IH]; simpl; intros Hnone; constructor.
  - apply orb_false_elim in Hnone. tauto.
  - apply IH. apply orb_false_elim in Hnone. tauto.
Qed.

Lemma aggregate_zero costOfChild ancestors nodes :
  Forall (fun child =>
            forall topLevel localDepth cost,
              costOfChild child topLevel localDepth = Ok cost ->
              score cost = 0) nodes ->
  forall localDepth topLevel acc out,
    aggregateScoreAndInnerForChildren costOfChild ancestors nodes
                                      localDepth topLevel acc = Ok out ->
    score out = score acc.
Proof.
  induction 1 as [| child rest Hchild _ IH];
    intros localDepth topLevel acc out; simpl.
  - intros [= <-]. reflexivity.
  - intros Hrun.
    apply bind_Ok in Hrun. destruct Hrun as [cost [Hcost Hrun]].
    apply bind_Ok in Hrun. destruct Hrun as [next [Hadd Hrun]].
    rewrite (IH _ _ _ _ Hrun), (addChildCost_score _ _ _ _ Hadd).
    rewrite (Hchild _ _ _ Hcost). lia.
Qed.

(** X9.  [nodeCost] charges nothing but the kinds with an inherent cost,
    the binary expressions, the call expressions and the if statements:
    a tree that holds none of them scores 0 at every depth, with every
    context, for every partitioner and every pair of declaration-name
    helpers. *)
Theorem nodeCost_plain_tree_scores_zero `{Depth} `{NodeInspection} :
  forall node parent topLevel depth namedAncestors cost,
    anyNode isChargeable node = false ->
    nodeCost node parent topLevel depth namedAncestors = Ok cost ->
    score cost = 0.
Proof.
  intros node.
  induction node as [k t l c children IH] using Node_ind.
  intros parent topLevel depth namedAncestors cost Hplain.
  cbn [anyNode getChildren] in Hplain.
  apply orb_false_elim in Hplain. destruct Hplain as [Hown Hbelow].
  apply existsb_false_Forall in Hbelow.
  rewrite nodeCost_unfold. unfold scoreChildrenAt, whereAreChildren.
  cbn [same below getChildren].
  rewrite (@inherentIncrement_plain _ parent namedAncestors Hown).
  rewrite (@nestingIncrement_plain _ parent depth Hown). cbn [bind].
  intros Hrun.
  apply bind_Ok in Hrun. destruct Hrun as [ancestors [_ Hrun]].
  apply bind_Ok in Hrun. destruct Hrun as [acc [Hsame Hrun]].
  assert (Hchildren :
            forall p i,
              Forall (fun child =>
                        forall topLevel localDepth cost,
                          nodeCost child
                                   (parentOfChildren (mkNode k t l c children) parent)
                                   topLevel localDepth ancestors = Ok cost ->
                          score cost = 0)
                     (pick p i children)).
  { intros p i. apply Forall_pick.
    rewrite Forall_forall in IH, Hbelow. apply Forall_forall.
    intros child Hin tl d childCost. apply (IH child Hin). apply Hbelow, Hin. }
  rewrite (@aggregate_zero _ _ _ (Hchildren _ _) _ _ _ _ Hrun).
  rewrite (@aggregate_zero _ _ _ (Hchildren _ _) _ _ _ _ Hsame).
  reflexivity.
Qed.

(** The theorem at [return obj.m;] at depth 7. *)
Lemma nodeCost_plain_tree_scores_zero_witness :
  score {| inner := []; score := 0 |} = 0.
Proof.
  apply (@nodeCost_plain_tree_scores_zero specDepth specNodeInspection
           (returnStatement (propertyAccess (ident "obj") "m"))
           None false 7 ["f"] {| inner := []; score := 0 |});
    reflexivity.
Defined.

(** ** Jumps to a label *)

Lemma breakOrContinue_kinds node :
  ts.isBreakOrContinueStatement node = true ->
  ts.isCatchClause node = false
  /\ ts.isConditionalExpression node = false
  /\ ts.isDoStatement node = false
  /\ ts.isForInStatement node = false
  /\ ts.isForOfStatement node = false
  /\ ts.isForStatement node = false
  /\ ts.isSwitchStatement node = false
  /\ ts.isWhileStatement node = false
  /\ ts.isIfStatement node = false
  /\ ts.isBinaryExpression node = false
  /\ ts.isCallExpression node = false.
Proof.
  unfold ts.isBreakOrContinueStatement, ts.isCatchClause,
    ts.isConditionalExpression, ts.isDoStatement, ts.isForInStatement,
    ts.isForOfStatement, ts.isForStatement, ts.isSwitchStatement,
    ts.isWhileStatement, ts.isIfStatement, ts.isBinaryExpression,
    ts.isCallExpression, ts.isKind.
  destruct (kind node); cbn; try discriminate; intros _; repeat split.
Qed.

(** X10.  A break or continue statement is charged 1 exactly when one of
    its children is an identifier (the label it jumps to) and 0
    otherwise, by both engines, and neither engine adds a nesting
    increment to it at any depth. *)
Theorem labelled_jump_increment :
  forall node parent depth namedAncestors,
    ts.isBreakOrContinueStatement node = true ->
    inherentIncrement node parent namedAncestors
    = Ok (if existsb ts.isIdentifier (getChildren node) then 1 else 0)
    /\ nestingIncrement node parent depth = Ok 0
    /\ NodeCost_inherentIncrement node
       = (if existsb ts.isIdentifier (getChildren node) then 1 else 0)
    /\ NodeCost_nestingIncrement node depth = 0.
Proof.
  intros node parent depth namedAncestors Hjump.
  destruct (breakOrContinue_kinds node Hjump)
    as [Hcatch [Hcond [Hdo [Hforin [Hforof [Hfor [Hswitch [Hwhile
          [Hif [Hbinary Hcall]]]]]]]]]].
  unfold inherentIncrement, nestingIncrement, NodeCost_inherentIncrement,
    NodeCost_nestingIncrement, hasInherentCost, hasNestingCost,
    NodeCost_hasInherentCost, NodeCost_hasNestingCost, isBreakOrContinueToLabel.
  rewrite Hjump, Hcatch, Hcond, Hdo, Hforin, Hforof, Hfor, Hswitch, Hwhile,
    Hif, Hbinary, Hcall.
  cbn [orb andb bind].
  destruct (existsb ts.isIdentifier (getChildren node));
    destruct (depth >? 0); repeat split; reflexivity.
Qed.

(** The theorem at [break outer;] and at [break;]. *)
Lemma labelled_jump_increment_witness :
  inherentIncrement
    (node BreakStatement [tok (OtherToken 2) "break"; ident "outer";
                          tok SemicolonToken ";"]) None [] = Ok 1
  /\ inherentIncrement
       (node BreakStatement [tok (OtherToken 2) "break"; tok SemicolonToken ";"])
       None [] = Ok 0.
Proof.
  split.
  - apply (labelled_jump_increment
             (node BreakStatement [tok (OtherToken 2) "break"; ident "outer";
                                   tok SemicolonToken ";"]) None 3 []).
    reflexivity.
  - apply (labelled_jump_increment
             (node BreakStatement [tok (OtherToken 2) "break";
                                   tok SemicolonToken ";"]) None 3 []).
    reflexivity.
Defined.

(** ** [fileCost] and [nodeCost] of the file *)

Lemma aggregate_passes_through costOfChild ancestors nodes :
  Forall (fun child => isReportedContainer child = false) nodes ->
  forall localDepth topLevel acc,
    aggregateScoreAndInnerForChildren costOfChild ancestors nodes
                                      localDepth topLevel acc
    = (childCosts <- mapM (fun child => costOfChild child topLevel localDepth)
                          nodes ;;
       Ok {| inner := inner acc ++ List.concat (map inner childCosts);
             score := fold_left sum (map score childCosts) (score acc) |}).
Proof.
  induction 1 as [| child rest Hplain _ IH]; intros localDepth topLevel acc; simpl.
  - rewrite app_nil_r. destruct acc. reflexivity.
  - destruct (costOfChild child topLevel localDepth) as [cost | e]; cbn [bind];
      [| reflexivity].
    unfold isReportedContainer in Hplain.
    apply orb_false_elim in Hplain. destruct Hplain as [Hplain Hmodule].
    apply orb_false_elim in Hplain. destruct Hplain as [Hfunction Hclass].
    rewrite (addChildCost_plain _ _ _ _ Hfunction Hclass Hmodule). cbn [bind].
    rewrite IH. cbn [inner score].
    destruct (mapM _ rest) as [costs | e]; cbn [bind]; [| reflexivity].
    simpl. rewrite app_assoc. reflexivity.
Qed.

Lemma pick_all {A : Type} (l : list A) :
  forall i, pick (fun _ => true) i l = l.
Proof.
  induction l as [| x rest IH]; intros i; simpl; [| rewrite IH]; reflexivity.
Qed.

Lemma pick_none {A : Type} (l : list A) :
  forall i, pick (fun _ => false) i l = [].
Proof.
  induction l as [| x rest IH]; intros i; simpl; [| rewrite IH]; reflexivity.
Qed.

Lemma pick_ext {A : Type} (p q : nat -> bool) (l : list A) :
  (forall i, p i = q i) -> forall i, pick p i l = pick q i l.
Proof.
  intros Hpq. induction l as [| x rest IH]; intros i; simpl; [reflexivity |].
  rewrite Hpq, IH. reflexivity.
Qed.

(** X11.  [fileCost] is [nodeCost] called on the file itself with the
    top-level flag, whenever the partitioner keeps all the children of
    the file in the bucket [same], the file is not a named declaration of
    a container, and no child of the file is function-like, a class
    declaration or a module declaration (the children of a source file
    are its statement list and the end-of-file token): the two return the
    same report or throw the same error. *)
Theorem fileCost_is_nodeCost_of_file `{Depth} `{NodeInspection} :
  forall file,
    kind file = SourceFile ->
    (forall i, isBelow file i = false) ->
    isNamedDeclarationOfContainer file = false ->
    Forall (fun child => isReportedContainer child = false) (getChildren file) ->
    nodeCost file None true 0 [] = fileCost file.
Proof.
  intros file Hkind Hsame Hnamed Hchildren.
  rewrite nodeCost_unfold. unfold scoreChildrenAt, whereAreChildren, fileCost.
  cbn [same below].
  assert (Hinherent : inherentIncrement file None [] = Ok 0).
  { apply inherentIncrement_plain.
    unfold isChargeable, hasInherentCost, isBreakOrContinueToLabel,
      ts.isBreakOrContinueStatement, ts.isCatchClause,
      ts.isConditionalExpression, ts.isDoStatement, ts.isForInStatement,
      ts.isForOfStatement, ts.isForStatement, ts.isSwitchStatement,
      ts.isWhileStatement, ts.isBinaryExpression, ts.isCallExpression,
      ts.isIfStatement, ts.isKind.
    rewrite Hkind. reflexivity. }
  rewrite Hinherent. cbn [bind nestingIncrement Z.gtb Z.compare].
  unfold maybeAddNodeToNamedAncestors. rewrite Hnamed.
  replace (isFunctionNode file) with false.
  2:{ unfold isFunctionNode, ts.isAccessor, ts.isArrowFunction,
        ts.isFunctionDeclaration, ts.isFunctionExpression,
        ts.isMethodDeclaration, ts.isKind.
      rewrite Hkind. reflexivity. }
  cbn [bind].
  replace (parentOfChildren file None) with (Some file).
  2:{ unfold parentOfChildren, ts.isKind. rewrite Hkind. reflexivity. }
  rewrite (pick_ext (fun i => negb (isBelow file i)) (fun _ => true))
    by (intros i; rewrite Hsame; reflexivity).
  rewrite (pick_ext (isBelow file) (fun _ => false)) by exact Hsame.
  rewrite pick_all, pick_none.
  rewrite (@aggregate_passes_through _ _ _ Hchildren).
  destruct (mapM _ (getChildren file)) as [childCosts | e]; reflexivity.
Qed.

(** The theorem at the file [if (a) {} else if (b) {} else {}]. *)
Lemma fileCost_is_nodeCost_of_file_witness :
  nodeCost (sourceFile [ifElseIfElse]) None true 0 []
  = fileCost (sourceFile [ifElseIfElse]).
Proof.
  apply (@fileCost_is_nodeCost_of_file specDepth specNodeInspection
           (sourceFile [ifElseIfElse])).
  - reflexivity.
  - intros i. reflexivity.
  - reflexivity.
  - repeat constructor.
Defined.

(** ** The alternate engine *)

Lemma NodeCost_unfold node depth :
  NodeCost node depth
  = let this :=
      {| inner := [];
         score := 0 + NodeCost_inherentIncrement node
                  + NodeCost_nestingIncrement node depth |} in
    let sub (calculate : list Node -> ScoreAndInner -> Z -> Result ScoreAndInner) :=
      cost <- calculate (getChildren node) {| inner := []; score := 0 |} depth ;;
      Ok {| inner := inner this ++ inner cost; score := score this + score cost |} in
    if ts.isForInStatement node
       || ts.isForOfStatement node
       || ts.isForStatement node
       || (negb (depth =? 0)%Z
           && (ts.isArrowFunction node
               || ts.isFunctionDeclaration node
               || ts.isFunctionExpression node
               || ts.isMethodDeclaration node))
    then Ok this
    else if ts.isCatchClause node then
      includeAll NodeCost this (getChildren node) (depth + 1)
    else if ts.isConditionalExpression node then
      sub (ConditionalExpressionCost_calculate NodeCost)
    else if ts.isDoStatement node then
      sub (DoStatementCost_calculate NodeCost)
    else if ts.isIfStatement node then
      sub (IfStatementCost_calculate NodeCost)
    else if ts.isSwitchStatement node then
      sub (SwitchStatementCost_calculate NodeCost)
    else if ts.isWhileStatement node then
      sub (WhileStatementCost_calculate NodeCost)
    else
      includeAll NodeCost this (getChildren node) depth.
Proof. destruct node. reflexivity. Qed.

Lemma ConditionalExpressionCost_calculate_nothing newNodeCost children :
  forall this depth,
    ConditionalExpressionCost_calculate newNodeCost children this depth = Ok this.
Proof.
  induction children as [| child rest IH]; intros this depth; simpl.
  - reflexivity.
  - destruct (isTokenOfKind QuestionToken child); [apply IH |].
    destruct (isTokenOfKind ColonToken child); apply IH.
Qed.

Section AlternateInvariant.
Variable newNodeCost : Node -> Z -> Result ScoreAndInner.

Lemma include_bare this child depth out :
  bareOn newNodeCost child ->
  inner this = [] /\ 0 <= score this ->
  include newNodeCost this child depth = Ok out ->
  inner out = [] /\ 0 <= score out.
Proof.
  intros Hchild [Hinner Hscore]. unfold include. intros Hout.
  apply bind_Ok in Hout. destruct Hout as [cost [Hcost [= <-]]].
  destruct (Hchild _ _ Hcost) as [Hinner' Hscore'].
  simpl. rewrite Hinner, Hinner'. split; [reflexivity | lia].
Qed.

Lemma includeAll_bare nodes :
  Forall (bareOn newNodeCost) nodes ->
  forall this depth out,
    inner this = [] /\ 0 <= score this ->
    includeAll newNodeCost this nodes depth = Ok out ->
    inner out = [] /\ 0 <= score out.
Proof.
  induction 1 as [| child rest Hchild _ IH]; intros this depth out Hthis; simpl.
  - intros [= <-]. exact Hthis.
  - intros Hout. apply bind_Ok in Hout. destruct Hout as [next [Hnext Hout]].
    apply (IH _ _ _ (@include_bare _ _ _ _ Hchild Hthis Hnext) Hout).
Qed.

Lemma DoStatementCost_bare children :
  Forall (bareOn newNodeCost) children ->
  forall this depth out,
    inner this = [] /\ 0 <= score this ->
    DoStatementCost_calculate newNodeCost children this depth = Ok out ->
    inner out = [] /\ 0 <= score out.
Proof.
  intros Hchildren this depth out Hthis. unfold DoStatementCost_calculate.
  destruct children as [| child [| blockNode [| w [| o [| condition rest]]]]];
    try discriminate;
    destruct (isTokenOfKind DoKeyword child); try discriminate.
  - intros Hout. apply bind_Ok in Hout. destruct Hout as [next [_ Hout]].
    discriminate Hout.
  - intros Hout. apply bind_Ok in Hout. destruct Hout as [next [_ Hout]].
    discriminate Hout.
  - intros Hout. apply bind_Ok in Hout. destruct Hout as [next [_ Hout]].
    discriminate Hout.
  - intros Hout. apply bind_Ok in Hout. destruct Hout as [next [Hnext Hout]].
    rewrite Forall_forall in Hchildren.
    assert (Hblock : bareOn newNodeCost blockNode)
      by (apply Hchildren; simpl; auto).
    assert (Hcondition : bareOn newNodeCost condition)
      by (apply Hchildren; simpl; auto 6).
    exact (@include_bare _ _ _ _ Hcondition
                         (@include_bare _ _ _ _ Hblock Hthis Hnext) Hout).
Qed.

Lemma IfStatementCost_bare children :
  Forall (bareOn newNodeCost) children ->
  forall this depth out,
    inner this = [] /\ 0 <= score this ->
    IfStatementCost_calculate newNodeCost children this depth = Ok out ->
    inner out = [] /\ 0 <= score out.
Proof.
  intros Hchildren.
  assert (Hgeneral :
            forall n children,
              (List.length children <= n)%nat ->
              Forall (bareOn newNodeCost) children ->
              forall this depth out,
                inner this = [] /\ 0 <= score this ->
                IfStatementCost_calculate newNodeCost children this depth = Ok out ->
                inner out = [] /\ 0 <= score out).
  { clear children Hchildren.
    induction n as [| n IH]; intros children Hlength Hchildren this depth out Hthis.
    - destruct children; [discriminate | simpl in Hlength; lia].
    - destruct children as [| child rest]; [discriminate |].
      simpl in Hlength. cbn [IfStatementCost_calculate].
      apply Forall_cons_iff in Hchildren. destruct Hchildren as [_ Hrest].
      destruct (isTokenOfKind IfKeyword child).
      + destruct rest as [| o [| condition rest']]; try discriminate.
        intros Hout. apply bind_Ok in Hout. destruct Hout as [next [Hnext Hout]].
        apply Forall_cons_iff in Hrest. destruct Hrest as [_ Hrest].
        apply Forall_cons_iff in Hrest. destruct Hrest as [Hcondition Hrest].
        assert (Hshort : (List.length rest' <= n)%nat) by (simpl in Hlength; lia).
        exact (IH rest' Hshort Hrest _ _ _
                  (@include_bare _ _ _ _ Hcondition Hthis Hnext) Hout).
      + destruct (isTokenOfKind CloseParenToken child).
        * destruct rest as [| thenNode rest']; [discriminate |].
          intros Hout. apply bind_Ok in Hout. destruct Hout as [next [Hnext Hout]].
          apply Forall_cons_iff in Hrest. destruct Hrest as [Hthen Hrest].
          assert (Hshort : (List.length rest' <= n)%nat)
            by (simpl in Hlength; lia).
          exact (IH rest' Hshort Hrest _ _ _
                    (@include_bare _ _ _ _ Hthen Hthis Hnext) Hout).
        * destruct (isTokenOfKind ElseKeyword child); [| discriminate].
          destruct rest as [| elseNode rest']; [discriminate |].
          apply Forall_cons_iff in Hrest. destruct Hrest as [Helse _].
          apply (@include_bare _ _ _ _ Helse Hthis). }
  apply (Hgeneral (List.length children) children (le_n _) Hchildren).
Qed.

Lemma SwitchStatementCost_bare children :
  Forall (bareOn newNodeCost) children ->
  forall this depth out,
    inner this = [] /\ 0 <= score this ->
    SwitchStatementCost_calculate newNodeCost children this depth = Ok out ->
    inner out = [] /\ 0 <= score out.
Proof.
  intros Hchildren this depth out Hthis. unfold SwitchStatementCost_calculate.
  destruct children as [| s [| o [| condition [| close [| cases rest]]]]];
    try discriminate.
  - intros Hout. apply bind_Ok in Hout. destruct Hout as [next [_ Hout]].
    discriminate Hout.
  - intros Hout. apply bind_Ok in Hout. destruct Hout as [next [_ Hout]].
    discriminate Hout.
  - intros Hout. apply bind_Ok in Hout. destruct Hout as [next [Hnext Hout]].
    rewrite Forall_forall in Hchildren.
    assert (Hcondition : bareOn newNodeCost condition)
      by (apply Hchildren; simpl; auto).
    assert (Hcases : bareOn newNodeCost cases)
      by (apply Hchildren; simpl; auto 6).
    exact (@include_bare _ _ _ _ Hcases
                         (@include_bare _ _ _ _ Hcondition Hthis Hnext) Hout).
Qed.

Lemma WhileStatementCost_bare children :
  Forall (bareOn newNodeCost) children ->
  forall this depth out,
    inner this = [] /\ 0 <= score this ->
    WhileStatementCost_calculate newNodeCost children this depth = Ok out ->
    inner out = [] /\ 0 <= score out.
Proof.
  intros Hchildren this depth out Hthis. unfold WhileStatementCost_calculate.
  destruct children as [| child rest]; [discriminate |].
  intros Hout. apply bind_Ok in Hout. destruct Hout as [next [Hnext Hout]].
  destruct (isTokenOfKind CloseParenToken child); [| discriminate].
  destruct rest as [| body rest']; [discriminate |].
  rewrite Forall_forall in Hchildren.
  assert (Hbody : bareOn newNodeCost body) by (apply Hchildren; simpl; auto).
  apply (@include_bare _ _ _ _ Hbody) in Hout; [exact Hout |].
  destruct (isTokenOfKind WhileKeyword child).
  - destruct rest' as [| condition rest'']; [discriminate |].
    assert (Hcondition : bareOn newNodeCost condition)
      by (apply Hchildren; simpl; auto).
    exact (@include_bare _ _ _ _ Hcondition Hthis Hnext).
  - injection Hnext as <-. exact Hthis.
Qed.

End AlternateInvariant.

Lemma NodeCost_own_nonneg node depth :
  0 <= 0 + NodeCost_inherentIncrement node + NodeCost_nestingIncrement node depth.
Proof.
  unfold NodeCost_inherentIncrement, NodeCost_nestingIncrement.
  destruct (NodeCost_hasInherentCost node);
    destruct (Z.gtb_spec depth 0); destruct (NodeCost_hasNestingCost node);
    cbn [andb]; lia.
Qed.

Lemma NodeCost_bare node :
  forall depth cost,
    NodeCost node depth = Ok cost -> inner cost = [] /\ 0 <= score cost.
Proof.
  induction node as [k t l c children IH] using Node_ind.
  intros depth cost. rewrite NodeCost_unfold. cbv zeta.
  set (node := mkNode k t l c children) in *.
  cbn [getChildren inner score].
  pose proof (NodeCost_own_nonneg node depth) as Hown.
  assert (Hthis : forall s, 0 <= s ->
                            inner {| inner := []; score := s |} = []
                            /\ 0 <= score {| inner := []; score := s |})
    by (intros s Hs; split; [reflexivity | exact Hs]).
  assert (Hsub : forall calculate,
             (forall this depth out,
                 inner this = [] /\ 0 <= score this ->
                 calculate (getChildren node) this depth = Ok out ->
                 inner out = [] /\ 0 <= score out) ->
             (sub <- calculate (getChildren node) {| inner := []; score := 0 |} depth ;;
              Ok {| inner := [] ++ inner sub;
                    score := 0 + NodeCost_inherentIncrement node
                             + NodeCost_nestingIncrement node depth + score sub |})
             = Ok cost ->
             inner cost = [] /\ 0 <= score cost).
  { intros calculate Hcalculate Hrun.
    apply bind_Ok in Hrun. destruct Hrun as [sub [Hsub [= <-]]].
    destruct (Hcalculate _ _ _ (Hthis 0 ltac:(lia)) Hsub) as [Hinner Hscore].
    simpl. rewrite Hinner. split; [reflexivity | lia]. }
  destruct (_ || _ || _ || _); [intros [= <-]; apply Hthis; exact Hown |].
  destruct (ts.isCatchClause node);
    [eapply includeAll_bare; [exact IH | apply Hthis; exact Hown] |].
  destruct (ts.isConditionalExpression node).
  { apply Hsub. intros this d out Hbare.
    rewrite ConditionalExpressionCost_calculate_nothing. intros [= <-]. exact Hbare. }
  destruct (ts.isDoStatement node);
    [apply Hsub; intros this d out; apply DoStatementCost_bare; exact IH |].
  destruct (ts.isIfStatement node);
    [apply Hsub; intros this d out; apply IfStatementCost_bare; exact IH |].
  destruct (ts.isSwitchStatement node);
    [apply Hsub; intros this d out; apply SwitchStatementCost_bare; exact IH |].
  destruct (ts.isWhileStatement node);
    [apply Hsub; intros this d out; apply WhileStatementCost_bare; exact IH |].
  eapply includeAll_bare; [exact IH | apply Hthis; exact Hown].
Qed.

(** X12.  [NodeCost] never reports a container and never returns a
    negative score: whenever [new NodeCost(node, depth)] returns, its
    [inner] is empty and its score is at least zero, for every node and
    every depth. *)
Theorem NodeCost_reports_nothing :
  forall node depth cost,
    NodeCost node depth = Ok cost -> inner cost = [] /\ 0 <= score cost.
Proof.
  intros node. apply NodeCost_bare.
Qed.

(** The theorem at [if (a) {} else if (b) {} else {}]. *)
Lemma NodeCost_reports_nothing_witness :
  inner {| inner := []; score := 3 |} = [] /\ 0 <= 3.
Proof.
  exact (@NodeCost_reports_nothing ifElseIfElse 0 {| inner := []; score := 3 |}
                                   eq_refl).
Defined.

Lemma calcElemCost_unfold node depth :
  calcElemCost node depth
  = (acc <- calcElemCostOfChildren (getChildren node)
                                   {| inner := []; score := 0 |} ;;
     nodeCost <- NodeCost node depth ;;
     Ok {| fo_name := getFullText node;
           fo_score := score acc + score nodeCost;
           fo_line := line node;
           fo_column := column node;
           fo_inner := inner acc ++ inner nodeCost |}).
Proof. destruct node. reflexivity. Qed.

Lemma calcElemCostOfChildren_elements children :
  forall acc out,
    calcElemCostOfChildren children acc = Ok out ->
    exists elems,
      Forall2 (fun child elem => calcElemCost child 0 = Ok elem) children elems
      /\ inner out = inner acc ++ elems
      /\ score out = score acc + sumScores elems.
Proof.
  induction children as [| child rest IH]; intros acc out; simpl.
  - intros [= <-]. exists []. split; [constructor |].
    rewrite app_nil_r. unfold sumScores. simpl. split; [reflexivity | lia].
  - intros Hrun. apply bind_Ok in Hrun. destruct Hrun as [elem [Helem Hrun]].
    destruct (IH _ _ Hrun) as [elems [Hall [Hinner Hscore]]].
    exists (elem :: elems). split; [constructor; assumption |].
    rewrite Hinner, Hscore. cbn [inner score].
    rewrite <- app_assoc. split; [reflexivity |].
    unfold sumScores. simpl. lia.
Qed.

(** X13.  The report of the alternate engine mirrors the syntax tree: the
    element that [calcElemCost] returns for a node carries the full text,
    line and column of the node and lists exactly one element per child,
    in order, each being [calcElemCost] of that child at depth 0 (the
    depth is not handed down); its score is the sum of the scores of
    these elements plus the score of [new NodeCost(node, depth)].
    [calcFileCost] lists one such element per child of the file and
    returns the sum of their scores. *)
Theorem calcElemCost_mirrors_tree :
  (forall node depth elem,
      calcElemCost node depth = Ok elem ->
      fo_name elem = getFullText node
      /\ fo_line elem = line node
      /\ fo_column elem = column node
      /\ Forall2 (fun child childElem => calcElemCost child 0 = Ok childElem)
                 (getChildren node) (fo_inner elem)
      /\ exists nodeCost,
          NodeCost node depth = Ok nodeCost
          /\ fo_score elem = sumScores (fo_inner elem) + score nodeCost)
  /\ (forall file report,
         calcFileCost file = Ok report ->
         Forall2 (fun child childElem => calcElemCost child 0 = Ok childElem)
                 (getChildren file) (inner report)
         /\ score report = sumScores (inner report)).
Proof.
  split.
  - intros node depth elem. rewrite calcElemCost_unfold. intros Hrun.
    apply bind_Ok in Hrun. destruct Hrun as [acc [Hacc Hrun]].
    apply bind_Ok in Hrun. destruct Hrun as [nodeCost [HnodeCost [= <-]]].
    destruct (calcElemCostOfChildren_elements _ _ Hacc)
      as [elems [Hall [Hinner Hscore]]].
    destruct (NodeCost_bare _ _ HnodeCost) as [Hbare _].
    cbn [fo_name fo_line fo_column fo_inner fo_score].
    rewrite Hinner, Hbare, Hscore. cbn [inner score app]. rewrite app_nil_r.
    repeat split; try assumption.
    exists nodeCost. split; [exact HnodeCost | lia].
  - intros file report Hrun.
    change (calcElemCostOfChildren (getChildren file) {| inner := []; score := 0 |}
            = Ok report) in Hrun.
    destruct (calcElemCostOfChildren_elements _ _ Hrun)
      as [elems [Hall [Hinner Hscore]]].
    rewrite Hinner, Hscore. cbn [inner score app].
    split; [exact Hall | lia].
Qed.

(** The theorem at the file [a && b;]. *)
Lemma calcElemCost_mirrors_tree_witness :
  exists report,
    calcFileCost (sourceFile [andAnd]) = Ok report
    /\ Forall2 (fun child childElem => calcElemCost child 0 = Ok childElem)
               (getChildren (sourceFile [andAnd])) (inner report)
    /\ score report = sumScores (inner report).
Proof.
  destruct (calcFileCost (sourceFile [andAnd])) as [report | e] eqn:Hrun;
    [| vm_compute in Hrun; discriminate Hrun].
  exists report. split; [reflexivity |].
  exact (proj2 calcElemCost_mirrors_tree (sourceFile [andAnd]) report Hrun).
Defined.

Lemma NodeCost_while node depth :
  ts.isWhileStatement node = true ->
  NodeCost node depth
  = (cost <- WhileStatementCost_calculate NodeCost (getChildren node)
                                          {| inner := []; score := 0 |} depth ;;
     Ok {| inner := [] ++ inner cost;
           score := 0 + NodeCost_inherentIncrement node
                    + NodeCost_nestingIncrement node depth + score cost |}).
Proof.
  intros Hwhile. rewrite NodeCost_unfold. cbv zeta.
  assert (Hkind : kind node = WhileStatement) by (apply kind_eqb_eq; exact Hwhile).
  unfold ts.isForInStatement, ts.isForOfStatement, ts.isForStatement,
    ts.isArrowFunction, ts.isFunctionDeclaration, ts.isFunctionExpression,
    ts.isMethodDeclaration, ts.isCatchClause, ts.isConditionalExpression,
    ts.isDoStatement, ts.isIfStatement, ts.isSwitchStatement,
    ts.isWhileStatement, ts.isKind.
  rewrite Hkind. cbn [kind_eqb]. 
  change (kind_eqb WhileStatement ForInStatement) with false.
  change (kind_eqb WhileStatement ForOfStatement) with false.
  change (kind_eqb WhileStatement ForStatement) with false.
  change (kind_eqb WhileStatement ArrowFunction) with false.
  change (kind_eqb WhileStatement FunctionDeclaration) with false.
  change (kind_eqb WhileStatement FunctionExpression) with false.
  change (kind_eqb WhileStatement MethodDeclaration) with false.
  change (kind_eqb WhileStatement CatchClause) with false.
  change (kind_eqb WhileStatement ConditionalExpression) with false.
  change (kind_eqb WhileStatement DoStatement) with false.
  change (kind_eqb WhileStatement IfStatement) with false.
  change (kind_eqb WhileStatement SwitchStatement) with false.
  change (kind_eqb WhileStatement WhileStatement) with true.
  cbn [orb andb]. rewrite andb_false_r. reflexivity.
Qed.

(** X14.  The alternate engine cannot score a while statement: when the
    first child of a while statement is the while keyword, as the parser
    lays it out, [new NodeCost(node, depth)] throws at every depth; once
    the condition has been scored, the error is the unexpected-node error
    on the while keyword itself. *)
Theorem NodeCost_while_statement_throws :
  forall node depth keyword rest,
    ts.isWhileStatement node = true ->
    getChildren node = keyword :: rest ->
    kind keyword = WhileKeyword ->
    (exists e, NodeCost node depth = Throw e)
    /\ (forall open condition rest' cost,
           rest = open :: condition :: rest' ->
           NodeCost condition depth = Ok cost ->
           NodeCost node depth = Throw (UnexpectedNodeError keyword)).
Proof.
  intros node depth keyword rest Hwhile Hchildren Hkeyword.
  rewrite (NodeCost_while node depth Hwhile), Hchildren.
  unfold WhileStatementCost_calculate, isTokenOfKind, ts.isToken.
  rewrite Hkeyword. cbn [kind_eqb andb].
  change (kind_eqb WhileKeyword WhileKeyword) with true.
  change (kind_eqb WhileKeyword CloseParenToken) with false.
  cbn iota. split.
  - destruct rest as [| open [| condition rest']]; cbn [bind iteratorDone];
      [eauto | eauto |].
    unfold include.
    destruct (NodeCost condition depth) as [cost | e]; cbn [bind]; eauto.
  - intros open condition rest' cost -> Hcondition.
    unfold include. rewrite Hcondition. reflexivity.
Qed.

(** The theorem at [while (b) {}]. *)
Lemma NodeCost_while_statement_throws_witness :
  NodeCost (while (ident "b") (block [])) 0
  = Throw (UnexpectedNodeError (tok WhileKeyword "while")).
Proof.
  apply (proj2 (@NodeCost_while_statement_throws
                  (while (ident "b") (block [])) 0 (tok WhileKeyword "while")
                  [tok OpenParenToken "("; ident "b"; tok CloseParenToken ")";
                   block []]
                  eq_refl eq_refl eq_refl)
               (tok OpenParenToken "(") (ident "b")
               [tok CloseParenToken ")"; block []]
               {| inner := []; score := 0 |} eq_refl eq_refl).
Defined.

(** Evaluates the comparisons of two known kinds in the goal. *)
Ltac eval_kinds :=
  repeat match goal with
         | |- context [kind_eqb ?a ?b] =>
             let v := eval vm_compute in (kind_eqb a b) in
             change (kind_eqb a b) with v
         end.

Ltac unfold_guards :=
  unfold NodeCost_inherentIncrement, NodeCost_nestingIncrement,
    NodeCost_hasInherentCost, NodeCost_hasNestingCost, isBreakOrContinueToLabel,
    ts.isBreakOrContinueStatement, ts.isForInStatement, ts.isForOfStatement,
    ts.isForStatement, ts.isArrowFunction, ts.isFunctionDeclaration,
    ts.isFunctionExpression, ts.isMethodDeclaration, ts.isCatchClause,
    ts.isConditionalExpression, ts.isDoStatement, ts.isIfStatement,
    ts.isSwitchStatement, ts.isWhileStatement, ts.isKind.

(** X15.  The alternate engine scores an if statement only when it has an
    else: for the children [if ( condition ) then], whose condition and
    then-branch are scored, [new NodeCost(node, depth)] throws, the walk
    asking for a child after the then-branch; for the children
    [if ( condition ) then else else-branch] it returns 1, plus the depth
    when the depth is positive, plus the scores of the condition at the
    depth of the node and of both branches one level deeper. *)
Theorem NodeCost_if_statement :
  forall node depth ifKeyword open condition close thenNode conditionCost thenCost,
    ts.isIfStatement node = true ->
    kind ifKeyword = IfKeyword ->
    kind close = CloseParenToken ->
    NodeCost condition depth = Ok conditionCost ->
    NodeCost thenNode (depth + 1) = Ok thenCost ->
    (getChildren node = [ifKeyword; open; condition; close; thenNode] ->
     NodeCost node depth = Throw IteratorDone)
    /\ (forall elseKeyword elseNode rest elseCost,
           getChildren node
           = ifKeyword :: open :: condition :: close :: thenNode
                       :: elseKeyword :: elseNode :: rest ->
           kind elseKeyword = ElseKeyword ->
           NodeCost elseNode (depth + 1) = Ok elseCost ->
           exists cost,
             NodeCost node depth = Ok cost
             /\ inner cost = []
             /\ score cost = 1 + (if depth >? 0 then depth else 0)
                             + score conditionCost + score thenCost
                             + score elseCost).
Proof.
  intros node depth ifKeyword open condition close thenNode conditionCost thenCost
         Hif HifKeyword Hclose Hcondition Hthen.
  assert (Hkind : kind node = IfStatement) by (apply kind_eqb_eq; exact Hif).
  assert (Hunfold :
            NodeCost node depth
            = (cost <- IfStatementCost_calculate NodeCost (getChildren node)
                                                 {| inner := []; score := 0 |} depth ;;
               Ok {| inner := [] ++ inner cost;
                     score := 0 + 1 + (if depth >? 0 then depth else 0)
                              + score cost |})).
  { rewrite NodeCost_unfold. cbv zeta. unfold_guards. rewrite Hkind. eval_kinds.
    cbn [orb andb]. rewrite andb_false_r.
    destruct (depth >? 0); reflexivity. }
  rewrite Hunfold. split.
  - intros ->. cbn [IfStatementCost_calculate].
    unfold isTokenOfKind, ts.isToken. rewrite HifKeyword, Hclose. eval_kinds.
    cbn [andb]. unfold include. rewrite Hcondition. cbn [bind].
    rewrite Hthen. reflexivity.
  - intros elseKeyword elseNode rest elseCost -> Helse HelseCost.
    cbn [IfStatementCost_calculate].
    unfold isTokenOfKind, ts.isToken. rewrite HifKeyword, Hclose, Helse. eval_kinds.
    cbn [andb]. unfold include. rewrite Hcondition. cbn [bind].
    rewrite Hthen. cbn [bind]. rewrite HelseCost. cbn [bind].
    destruct (NodeCost_bare _ _ Hcondition) as [Hinner1 _].
    destruct (NodeCost_bare _ _ Hthen) as [Hinner2 _].
    destruct (NodeCost_bare _ _ HelseCost) as [Hinner3 _].
    eexists. split; [reflexivity |]. cbn [inner score].
    rewrite Hinner1, Hinner2, Hinner3. split; [reflexivity | lia].
Qed.

(** The theorem at [if (b) {}] and at [if (a) {} else {}]. *)
Lemma NodeCost_if_statement_witness :
  NodeCost ifNoElse 0 = Throw IteratorDone
  /\ exists cost,
      NodeCost (ifThenElse (ident "b") (block []) (block [])) 0 = Ok cost
      /\ inner cost = []
      /\ score cost = 1 + (if 0 >? 0 then 0 else 0) + 0 + 0 + 0.
Proof.
  split.
  - apply (proj1 (@NodeCost_if_statement
                    ifNoElse 0 (tok IfKeyword "if") (tok OpenParenToken "(")
                    (ident "b") (tok CloseParenToken ")") (block [])
                    {| inner := []; score := 0 |} {| inner := []; score := 0 |}
                    eq_refl eq_refl eq_refl eq_refl eq_refl)).
    reflexivity.
  - apply (proj2 (@NodeCost_if_statement
                    (ifThenElse (ident "b") (block []) (block [])) 0
                    (tok IfKeyword "if") (tok OpenParenToken "(")
                    (ident "b") (tok CloseParenToken ")") (block [])
                    {| inner := []; score := 0 |} {| inner := []; score := 0 |}
                    eq_refl eq_refl eq_refl eq_refl eq_refl)
                 (tok ElseKeyword "else") (block []) []
                 {| inner := []; score := 0 |} eq_refl eq_refl eq_refl).
Defined.

(** X16.  The alternate engine never looks inside a for, for-in or for-of
    statement, a conditional expression, or a function that it meets at a
    depth other than 0: whatever the children are, a loop or a
    conditional expression scores 1, plus the depth when the depth is
    positive, and such a function (arrow function, function declaration,
    function expression or method) scores 0; none of these runs throws. *)
Theorem NodeCost_ignores_children :
  (forall node depth,
      In (kind node)
         [ForInStatement; ForOfStatement; ForStatement; ConditionalExpression] ->
      NodeCost node depth
      = Ok {| inner := [];
              score := 0 + 1 + (if depth >? 0 then depth else 0) |})
  /\ (forall node depth,
         In (kind node)
            [ArrowFunction; FunctionDeclaration; FunctionExpression;
             MethodDeclaration] ->
         depth <> 0 ->
         NodeCost node depth = Ok {| inner := []; score := 0 + 0 + 0 |}).
Proof.
  split.
  - intros node depth Hkind. rewrite NodeCost_unfold. cbv beta zeta.
    rewrite ConditionalExpressionCost_calculate_nothing. unfold_guards.
    simpl in Hkind.
    destruct Hkind as [<- | [<- | [<- | [<- | []]]]]; eval_kinds;
      cbn [orb andb bind inner score app];
      destruct (depth >? 0); destruct (negb (depth =? 0)%Z); cbn [andb];
      try reflexivity; rewrite Z.add_0_r; reflexivity.
  - intros node depth Hkind Hdepth. rewrite NodeCost_unfold. cbv zeta.
    unfold_guards.
    apply Z.eqb_neq in Hdepth. rewrite Hdepth.
    simpl in Hkind.
    destruct Hkind as [<- | [<- | [<- | [<- | []]]]]; eval_kinds;
      cbn [orb andb negb]; rewrite andb_false_r; reflexivity.
Qed.

(** The theorem at a for statement at depth 2 and at an arrow function at
    depth 1, each with an if statement inside. *)
Lemma NodeCost_ignores_children_witness :
  NodeCost (node ForStatement [ifNoElse]) 2
  = Ok {| inner := []; score := 0 + 1 + (if 2 >? 0 then 2 else 0) |}
  /\ NodeCost (node ArrowFunction [ifNoElse]) 1
     = Ok {| inner := []; score := 0 + 0 + 0 |}.
Proof.
  destruct NodeCost_ignores_children as [Hloop Hfunction].
  split.
  - apply (Hloop (node ForStatement [ifNoElse]) 2). simpl. auto.
  - apply (Hfunction (node ArrowFunction [ifNoElse]) 1); [simpl; auto | lia].
Defined.
